(** * Car Replacement Decision Support System: the decision engine

    A shallow embedding of the computational core of [IDSSstreamlit.py]
    (helper functions, lookup tables and the results page), and the
    properties of it that the specification states.

    Numbers.  The program computes with Python numbers ([int], [float]) and
    with [numpy.float64] values (what [LinearRegression.predict] returns).
    Finite values are idealised as exact rationals ([Qc]): binary64 rounding,
    overflow and signed zeros are not modelled.  What is modelled is the
    difference between the two kinds of number that the program can observe:
    a true division of two Python numbers by zero raises [ZeroDivisionError],
    whereas an arithmetic operation with a [numpy.float64] operand follows
    IEEE 754 and yields [inf] or [nan] (with a warning only). *)

From Stdlib Require Import QArith Qpower Qcanon Field Lra Psatz Ascii.
From stdpp Require Import gmap strings list numbers.

Local Open Scope Qc_scope.

(** ** Python runtime *)

Module Py.

(** The exceptions the core can raise. *)
Inductive exn : Type :=
  | ValueError (msg : string)
  | KeyError (key : string)
  | IndexError
  | ZeroDivisionError.

(** A computation either returns a value or raises. *)
Inductive result (A : Type) : Type :=
  | Ret (a : A)
  | Raise (e : exn).
Global Arguments Ret {A} a.
Global Arguments Raise {A} e.

Definition bind {A B} (m : result A) (k : A → result B) : result B :=
  match m with
  | Ret a => k a
  | Raise e => Raise e
  end.

(** [[f x for x in l]]: the elements are evaluated left to right and the
    first exception aborts the comprehension. *)
Fixpoint comprehension {A B} (f : A → result B) (l : list A) : result (list B) :=
  match l with
  | [] => Ret []
  | x :: l' =>
      bind (f x) (λ y, bind (comprehension f l') (λ ys, Ret (y :: ys)))
  end.

(** [enumerate(l, start)] *)
Fixpoint enumerate {A} (l : list A) (start : nat) : list (nat * A) :=
  match l with
  | [] => []
  | x :: l' => (start, x) :: enumerate l' (S start)
  end.

(** [d[k]] on a dict with string keys *)
Definition getitem {A} (d : gmap string A) (k : string) : result A :=
  match d !! k with
  | Some v => Ret v
  | None => Raise (KeyError k)
  end.

(** [d.get(k, dflt)] *)
Definition get {A} (d : gmap string A) (k : string) (dflt : A) : A :=
  default dflt (d !! k).

(** [l[i]] for a non-negative index *)
Definition index {A} (l : list A) (i : nat) : result A :=
  match l !! i with
  | Some v => Ret v
  | None => Raise IndexError
  end.

End Py.

Import Py.

(** The [x ← m; k] notation of stdpp sequences computations that may raise. *)
Global Instance result_ret : MRet result := @Ret.
Global Instance result_bind : MBind result := λ A B k m, Py.bind m k.

(** ** Numbers *)

(** Decimal and integer literals of the source, as exact rationals. *)
Definition lit (q : Q) : Qc := Q2Qc q.

(** A [numpy.float64]: a finite value or one of the IEEE special values. *)
Inductive float64 : Type :=
  | Fin (q : Qc)
  | PInf
  | NInf
  | NaN.

(** A number at run time: a Python [int]/[float] or a [numpy.float64]. *)
Inductive num : Type :=
  | PyNum (q : Qc)
  | NpNum (x : float64).

Module F64.

Definition sign (x : float64) : comparison :=
  match x with
  | Fin q => q ?= 0
  | PInf => Gt
  | NInf => Lt
  | NaN => Eq
  end.

Definition neg (x : float64) : float64 :=
  match x with
  | Fin q => Fin (- q)
  | PInf => NInf
  | NInf => PInf
  | NaN => NaN
  end.

Definition add (x y : float64) : float64 :=
  match x, y with
  | NaN, _ | _, NaN => NaN
  | Fin a, Fin b => Fin (a + b)
  | PInf, NInf | NInf, PInf => NaN
  | PInf, _ | _, PInf => PInf
  | NInf, _ | _, NInf => NInf
  end.

(** The sign of a product or quotient of two non-zero operands. *)
Definition signed_inf (s1 s2 : comparison) : float64 :=
  match s1, s2 with
  | Eq, _ | _, Eq => NaN
  | Gt, Gt | Lt, Lt => PInf
  | _, _ => NInf
  end.

Definition mul (x y : float64) : float64 :=
  match x, y with
  | NaN, _ | _, NaN => NaN
  | Fin a, Fin b => Fin (a * b)
  | _, _ => signed_inf (sign x) (sign y)
  end.

(** IEEE division; the zero of this model is [+0.0]. *)
Definition div (x y : float64) : float64 :=
  match x, y with
  | NaN, _ | _, NaN => NaN
  | Fin a, Fin b =>
      if decide (b = 0) then signed_inf (a ?= 0) Gt else Fin (a / b)
  | Fin _, _ => Fin 0
  | _, Fin b => signed_inf (sign x) (if decide (b < 0) then Lt else Gt)
  | _, _ => NaN
  end.

(** [x > y]: false as soon as an operand is [nan]. *)
Definition gt (x y : float64) : bool :=
  match x, y with
  | NaN, _ | _, NaN => false
  | Fin a, Fin b => bool_decide (b < a)
  | PInf, PInf | NInf, _ => false
  | PInf, _ => true
  | Fin _, NInf => true
  | Fin _, PInf => false
  end.

End F64.

Module Num.

(** Conversion of an operand when the other one is a [numpy.float64]. *)
Definition to_float64 (x : num) : float64 :=
  match x with
  | PyNum q => Fin q
  | NpNum f => f
  end.

(** The finite value of a number, if it has one. *)
Definition real_of (x : num) : option Qc :=
  match x with
  | PyNum q | NpNum (Fin q) => Some q
  | NpNum _ => None
  end.

(** [- x] *)
Definition neg (x : num) : num :=
  match x with
  | PyNum q => PyNum (- q)
  | NpNum f => NpNum (F64.neg f)
  end.

(** [x + y], [x - y], [x * y]: Python arithmetic on two Python numbers,
    numpy arithmetic as soon as one operand is a [numpy.float64]. *)
Definition add (x y : num) : num :=
  match x, y with
  | PyNum a, PyNum b => PyNum (a + b)
  | _, _ => NpNum (F64.add (to_float64 x) (to_float64 y))
  end.

Definition sub (x y : num) : num :=
  match x, y with
  | PyNum a, PyNum b => PyNum (a - b)
  | _, _ => NpNum (F64.add (to_float64 x) (F64.neg (to_float64 y)))
  end.

Definition mul (x y : num) : num :=
  match x, y with
  | PyNum a, PyNum b => PyNum (a * b)
  | _, _ => NpNum (F64.mul (to_float64 x) (to_float64 y))
  end.

(** [x / y]: the only arithmetic operation of the core that can raise. *)
Definition div (x y : num) : result num :=
  match x, y with
  | PyNum a, PyNum b =>
      if decide (b = 0) then Raise ZeroDivisionError else Ret (PyNum (a / b))
  | _, _ => Ret (NpNum (F64.div (to_float64 x) (to_float64 y)))
  end.

(** [x > y] *)
Definition gt (x y : num) : bool :=
  F64.gt (to_float64 x) (to_float64 y).

(** [max(a, b)] of two arguments: [b] only when [b > a]. *)
Definition max (a b : num) : num :=
  if gt b a then b else a.

(** [sum(l)]: left to right, starting from the [int] 0. *)
Definition sum (l : list num) : num :=
  foldl add (PyNum 0) l.

End Num.

(** The sum of a list of rationals. *)
Definition qsum (l : list Qc) : Qc := foldr Qcplus 0 l.

(** ** scikit-learn's [LinearRegression], one feature, with intercept

    The estimator is a library, not part of the program: it is modelled by
    what it computes, the ordinary-least-squares line through the points
    [(X[i], y[i])].  [fit] stores the slope in [coef_] and the intercept in
    [intercept_]; [predict] evaluates [X @ coef_ + intercept_] and returns
    an array of [numpy.float64]. *)

Module LinearRegression.

Record model : Type := { coef_ : Qc; intercept_ : Qc }.

Definition mean (l : list Qc) : Qc :=
  qsum l / lit (inject_Z (Z.of_nat (length l))).

Definition fit (X y : list Qc) : model :=
  let X_offset := mean X in
  let y_offset := mean y in
  let sxy := qsum (zip_with (λ x v, (x - X_offset) * (v - y_offset)) X y) in
  let sxx := qsum ((λ x, (x - X_offset) * (x - X_offset)) <$> X) in
  let coef := sxy / sxx in
  {| coef_ := coef; intercept_ := y_offset - X_offset * coef |}.

Definition predict (m : model) (X : list Qc) : list num :=
  (λ x, NpNum (Fin (x * coef_ m + intercept_ m))) <$> X.

(** Sum of squared residuals of the line [a + b x] on the data. *)
Definition sse (a b : Qc) (X y : list Qc) : Qc :=
  qsum (zip_with (λ x v, (v - (a + b * x)) * (v - (a + b * x))) X y).

End LinearRegression.

(** ** Helper functions of the program *)

Definition calculate_weighted_score
    (cost_score style_score reliability_score fuel_economy_score safety_score : num)
    (weights : gmap string num) : result num :=
  w_cost ← getitem weights "cost";
  w_style ← getitem weights "style";
  w_reliability ← getitem weights "reliability";
  w_fuel_economy ← getitem weights "fuel_economy";
  w_safety ← getitem weights "safety";
  mret (Num.add (Num.add (Num.add (Num.add
          (Num.mul w_cost cost_score)
          (Num.mul w_style style_score))
          (Num.mul w_reliability reliability_score))
          (Num.mul w_fuel_economy fuel_economy_score))
          (Num.mul w_safety safety_score)).

Definition calculate_pv (cash_flows : list num) (discount_rate : Qc) : result num :=
  terms ← comprehension
             (λ '(year, cf), Num.div cf (PyNum ((1 + discount_rate) ^ year)))
             (enumerate cash_flows 0);
  mret (Num.sum terms).

Definition past_years : list Qc := [lit 1; lit 2; lit 3].
Definition future_years : list Qc := [lit 4; lit 5; lit 6; lit 7; lit 8].

Definition predict_operating_costs (operating_costs : list Qc) : result (list num) :=
  if decide (length operating_costs ≠ 3%nat)
  then Raise (ValueError "Operating costs must have exactly 3 years of data.")
  else
    let model := LinearRegression.fit past_years operating_costs in
    Ret ((λ cf, Num.max (PyNum 0) cf) <$> LinearRegression.predict model future_years).

(** ** Predefined scores *)

Definition reliability_scores : gmap string Qc :=
  list_to_map [("Japanese", lit 0.9); ("Korean", lit 0.8);
               ("American", lit 0.8); ("German", lit 0.7)].

Definition safety_scores : gmap string Qc :=
  list_to_map [("Japanese", lit 0.7); ("Korean", lit 0.8);
               ("American", lit 0.85); ("German", lit 0.9)].

Definition challenger_nationality : gmap string string :=
  list_to_map [("Ford Explorer", "American"); ("Honda Accord", "Japanese");
               ("Nissan Altima", "Japanese"); ("Toyota Camry", "Japanese");
               ("Hyundai Sonata", "Korean"); ("BMW 5 Series", "German")].

Definition depreciation_rates : gmap string Qc :=
  list_to_map [("American", lit 0.15); ("Japanese", lit 0.11);
               ("German", lit 0.18); ("Korean", lit 0.13)].

(** ** Data loaded from the spreadsheets

    The three dicts that the program builds from its Excel files, keyed by
    car name.  The files are not part of the core: the dicts are taken as
    given, with values of either kind of number. *)

Record dataset : Type := {
  challenger_operating_costs_data : gmap string (list num);
  fuel_economy_data : gmap string num;
  challenger_buying_prices : gmap string num
}.

(** ** The input page

    What [st.session_state.inputs] holds once the form is submitted: Python
    floats from the number inputs, Python ints from the sliders. *)

Record inputs : Type := {
  defender_market_value : Qc;
  defender_operating_costs : list Qc;
  defender_fuel_economy_kmpl : Qc;
  style_score_defender_input : Z;
  origin_defender : string;
  challenger_car : string;
  style_score_challenger_input : Z;
  weights : gmap string num
}.

Definition of_int (z : Z) : num := PyNum (lit (inject_Z z)).

(** The [weights] dict comprehension: one slider per factor, the key being
    the factor name in lower case with [_] for the space. *)
Definition slider_weights (style reliability cost fuel_economy safety : Z)
    : gmap string num :=
  list_to_map [("style", of_int style); ("reliability", of_int reliability);
               ("cost", of_int cost); ("fuel_economy", of_int fuel_economy);
               ("safety", of_int safety)].

(** ** The results page *)

(** [price * (1 - dep_rate) ** 5] *)
Definition residual_value (price : num) (dep_rate : Qc) : num :=
  Num.mul price (PyNum ((1 - dep_rate) ^ 5)).

(** [depreciation_rates.get(nationality, 0.1)] *)
Definition dep_rate (nationality : string) : Qc :=
  Py.get depreciation_rates nationality (lit 0.1).

(** The shape shared by [cash_flow_defender] and [cash_flow_challenger]:
    [[first] + [-cost for cost in costs[:4]] + [-costs[4] + residual]]. *)
Definition cash_flow (first : num) (costs : list num) (residual : num)
    : result (list num) :=
  last ← Py.index costs 4;
  mret ([first] ++ (Num.neg <$> take 4 costs) ++ [Num.add (Num.neg last) residual]).

(** [total_pv], [cost_score_defender] and [cost_score_challenger]. *)
Definition cost_scores (defender_pv challenger_pv : num) : result (num * num) :=
  let total_pv := Num.add defender_pv challenger_pv in
  cost_score_defender ← Num.div challenger_pv total_pv;
  cost_score_challenger ← Num.div defender_pv total_pv;
  mret (cost_score_defender, cost_score_challenger).

Definition REPLACE : string := "Replace the current car with the new one.".
Definition KEEP : string := "Keep your car.".

(** The conditional expression of the recommendation line. *)
Definition recommendation (challenger_weighted_score defender_weighted_score : num)
    : string :=
  if Num.gt challenger_weighted_score defender_weighted_score then REPLACE else KEEP.

(** What the page displays. *)
Record report : Type := {
  defender_pv : num;
  challenger_pv : num;
  defender_weighted_score : num;
  challenger_weighted_score : num;
  recommended : string;
  cash_flow_defender : list num;
  cash_flow_challenger : list num
}.

(** The first call of [calculate_weighted_score], with its arguments
    evaluated from left to right. *)
Definition defender_score (cost_score style_score fuel_economy_score : num)
    (origin : string) (weights : gmap string num) : result num :=
  reliability ← getitem reliability_scores origin;
  safety ← getitem safety_scores origin;
  calculate_weighted_score cost_score style_score (PyNum reliability)
    fuel_economy_score (PyNum safety) weights.

(** The second call; [nationality] is [challenger_nationality[challenger_car]]. *)
Definition challenger_score (data : dataset) (cost_score style_score : num)
    (car nationality : string) (weights : gmap string num) : result num :=
  reliability ← getitem reliability_scores nationality;
  fuel_economy ← getitem (fuel_economy_data data) car;
  fuel_economy_score ← Num.div fuel_economy (PyNum (lit 30));
  safety ← getitem safety_scores nationality;
  calculate_weighted_score cost_score style_score (PyNum reliability)
    fuel_economy_score (PyNum safety) weights.

Definition results_page (data : dataset) (i : inputs) : result report :=
  defender_fuel_economy_score ←
    Num.div (PyNum (defender_fuel_economy_kmpl i)) (PyNum (lit 30));
  style_score_defender ←
    Num.div (of_int (style_score_defender_input i)) (PyNum (lit 10));
  style_score_challenger ←
    Num.div (of_int (style_score_challenger_input i)) (PyNum (lit 10));
  predicted_defender_costs ← predict_operating_costs (defender_operating_costs i);
  let dep_rate_defender := dep_rate (origin_defender i) in
  nationality ← getitem challenger_nationality (challenger_car i);
  let dep_rate_challenger := dep_rate nationality in
  let residual_value_defender :=
    residual_value (PyNum (defender_market_value i)) dep_rate_defender in
  price ← getitem (challenger_buying_prices data) (challenger_car i);
  let residual_value_challenger := residual_value price dep_rate_challenger in
  flow_defender ←
    cash_flow (PyNum 0) predicted_defender_costs residual_value_defender;
  costs ← getitem (challenger_operating_costs_data data) (challenger_car i);
  flow_challenger ←
    cash_flow (Num.sub (PyNum (defender_market_value i)) price)
              costs residual_value_challenger;
  pv_defender ← calculate_pv flow_defender (lit 0.05);
  pv_challenger ← calculate_pv flow_challenger (lit 0.05);
  '(cost_score_defender, cost_score_challenger) ←
    cost_scores pv_defender pv_challenger;
  score_defender ←
    defender_score cost_score_defender style_score_defender
      defender_fuel_economy_score (origin_defender i) (weights i);
  score_challenger ←
    challenger_score data cost_score_challenger style_score_challenger
      (challenger_car i) nationality (weights i);
  mret {| defender_pv := pv_defender;
          challenger_pv := pv_challenger;
          defender_weighted_score := score_defender;
          challenger_weighted_score := score_challenger;
          recommended := recommendation score_challenger score_defender;
          cash_flow_defender := flow_defender;
          cash_flow_challenger := flow_challenger |}.

(** An example: the default values of the input form, on a dataset of one
    car (the spreadsheets themselves are not among the sources). *)
Definition demo_data : dataset :=
  {| challenger_operating_costs_data :=
       {[ "Toyota Camry" := of_int <$> [500; 550; 600; 650; 700]%Z ]};
     fuel_economy_data := {[ "Toyota Camry" := PyNum (lit 15) ]};
     challenger_buying_prices := {[ "Toyota Camry" := of_int 25000 ]} |}.

Definition demo_inputs : inputs :=
  {| defender_market_value := lit 11000;
     defender_operating_costs := [lit 1000; lit 1000; lit 1000];
     defender_fuel_economy_kmpl := lit 12.7;
     style_score_defender_input := 6;
     origin_defender := "Japanese";
     challenger_car := "Toyota Camry";
     style_score_challenger_input := 9;
     weights := slider_weights 4 1 4 1 1 |}.

(** ** Definitions used to state the properties *)

(** The error of [predict_operating_costs]. *)
Definition length_error : exn :=
  ValueError "Operating costs must have exactly 3 years of data.".

(** The numbers [flows] are finite, with the values [qs]. *)
Definition finite_flows (flows : list num) (qs : list Qc) : Prop :=
  Forall2 (λ x q, Num.real_of x = Some q) flows qs.

(** The present value as the specification writes it: the sum over
    [t = 0 .. len - 1] of [flows[t] / (1 + rate) ^ t]. *)
Definition present_value_formula (flows : list Qc) (rate : Qc) : Qc :=
  qsum
    ((λ t, default 0 (flows !! t) / (1 + rate) ^ t) <$> seq 0 (length flows)).

(** One discounted term of [calculate_pv]. *)
Definition discounted (rate : Qc) : nat * Qc → Qc :=
  λ '(year, q), q / (1 + rate) ^ year.

(** The options of the nationality select box. *)
Definition nationalities : list string :=
  ["Japanese"; "Korean"; "American"; "German"].

(** The weighted sum of [calculate_weighted_score], for the weights of the
    five sliders. *)
Definition weighted_sum (cost_score style_score reliability_score
    fuel_economy_score safety_score : num)
    (cost style reliability fuel_economy safety : Z) : num :=
  Num.add (Num.add (Num.add (Num.add
    (Num.mul (of_int cost) cost_score)
    (Num.mul (of_int style) style_score))
    (Num.mul (of_int reliability) reliability_score))
    (Num.mul (of_int fuel_economy) fuel_economy_score))
    (Num.mul (of_int safety) safety_score).

(** ** Further functions of the program *)

Module Builtin.

(** [x < y] *)
Definition lt (x y : num) : bool :=
  F64.gt (Num.to_float64 y) (Num.to_float64 x).

(** [abs(x)] *)
Definition abs (x : num) : num :=
  match x with
  | PyNum q => PyNum (if decide (q < 0) then - q else q)
  | NpNum (Fin q) => NpNum (Fin (if decide (q < 0) then - q else q))
  | NpNum NaN => NpNum NaN
  | NpNum _ => NpNum PInf
  end.

(** [c.lower()] on an ASCII character *)
Definition lower_char (c : Ascii.ascii) : Ascii.ascii :=
  let n := Ascii.nat_of_ascii c in
  if (65 <=? n)%nat && (n <=? 90)%nat then Ascii.ascii_of_nat (n + 32) else c.

(** [s.lower()] on an ASCII string *)
Fixpoint lower (s : string) : string :=
  match s with
  | EmptyString => EmptyString
  | String c s' => String (lower_char c) (lower s')
  end.

(** [s.replace(old, new)] for one-character [old] and [new] *)
Fixpoint replace (old new : Ascii.ascii) (s : string) : string :=
  match s with
  | EmptyString => EmptyString
  | String c s' =>
      String (if decide (c = old) then new else c) (replace old new s')
  end.

End Builtin.

(** The split of a cash-flow series into inflows and outflows. *)
Definition format_cash_flows (cash_flows : list num) : list num * list num :=
  let inflows :=
    (λ cf, if Num.gt cf (PyNum 0) then cf else PyNum 0) <$> cash_flows in
  let outflows :=
    (λ cf, if Builtin.lt cf (PyNum 0) then Builtin.abs cf else PyNum 0)
      <$> cash_flows in
  (inflows, outflows).

(** The factors of the weight sliders, in the order of the form. *)
Definition factors : list string :=
  ["Style"; "Reliability"; "Cost"; "Fuel Economy"; "Safety"].

(** [factor.lower().replace(" ", "_")] *)
Definition weight_key (factor : string) : string :=
  Builtin.replace " "%char "_"%char (Builtin.lower factor).

(** The initial position of a weight slider. *)
Definition default_weight (factor : string) : Z :=
  if decide (factor ∈ ["Style"; "Cost"]) then 4 else 1.

(** The [weights] dict comprehension of the input page; [slider] gives the
    position of the slider of each factor.  As in a Python dict, a later
    entry with the same key replaces an earlier one. *)
Definition input_weights (slider : string → Z) : gmap string num :=
  foldl (λ weights factor, <[weight_key factor := of_int (slider factor)]> weights)
        ∅ factors.

(** The keys that [calculate_weighted_score] reads, in the order in which it
    reads them. *)
Definition weight_keys : list string :=
  ["cost"; "style"; "reliability"; "fuel_economy"; "safety"].

(** What [max(0, p)] leaves of a finite value [p]. *)
Definition clamped (p : Qc) : Qc := if decide (0 < p) then p else 0.

(** A number that is zero or [nan]: what a product by a zero weight can be. *)
Definition zero_or_nan (x : num) : Prop :=
  Num.real_of x = Some 0 ∨ x = NpNum NaN.

(** A number that is a [numpy.float64]. *)
Definition is_numpy (x : num) : Prop := ∃ f, x = NpNum f.

(** ** The two pages and the session state

    Streamlit runs the script again at every interaction; what survives
    from one run to the next is [st.session_state], here the current page
    and the stored inputs ([None] for the empty dict of the first run).  A
    button is true in the run that its click starts.  An exception ends the
    run: what follows it in the script is not executed. *)

Record session : Type := {
  page : string;
  stored_inputs : option inputs
}.

(** The state that the first run initialises. *)
Definition initial_session : session :=
  {| page := "input"; stored_inputs := None |}.

(** One run of the script: [form] holds the values of the widgets of the
    input page, [button] tells whether the button of the current page
    ("Get Recommendation" or "Go Back") was clicked.  The run returns the
    next session state and the report it displayed, if any. *)
Definition run (data : dataset) (s : session) (form : inputs) (button : bool)
    : session * result (option report) :=
  if decide (page s = "input") then
    if button
    then ({| page := "results"; stored_inputs := Some form |}, Ret None)
    else (s, Ret None)
  else if decide (page s = "results") then
    match stored_inputs s with
    | None => (s, Raise (KeyError "defender_market_value"))
    | Some i =>
        match results_page data i with
        | Raise e => (s, Raise e)
        | Ret r =>
            (if button
             then {| page := "input"; stored_inputs := stored_inputs s |}
             else s,
             Ret (Some r))
        end
    end
  else (s, Ret None).

(** The session state after a sequence of interactions. *)
Definition runs (data : dataset) (s : session) (events : list (inputs * bool))
    : session :=
  foldl (λ s '(form, button), (run data s form button).1) s events.

(** * Properties *)

(** ** Rational arithmetic *)

(** Moves a goal or hypotheses on [Qc] to [Q], where [field] and [lra]
    know the numerals. *)
Lemma Qc_eq_Qeq (a b : Qc) : a = b ↔ (a == b)%Q.
Proof. split; [by intros -> | apply Qc_is_canon]. Qed.

Ltac qc_unfold :=
  unfold lit, Qcdiv, Qcminus, Qcinv, Qcmult, Qcplus, Qcopp, Qclt, Qcle, Q2Qc in *;
  cbn [this inject_Z Z.of_nat length Pos.of_succ_nat Pos.succ] in *;
  rewrite ?Qred_correct in *.

Ltac qc_to_q := rewrite ?Qc_eq_Qeq in *; qc_unfold.

Ltac qc_field := qc_to_q; field.

(** Closed equations between values that contain rationals: both sides are
    evaluated and the rationals compared as fractions. *)
Ltac qc_eq :=
  lazymatch goal with
  | |- @eq Qc _ _ => apply Qc_is_canon; reflexivity
  | |- _ => first [reflexivity | f_equal; qc_eq]
  end.
Ltac qc_compute := vm_compute; qc_eq.

Lemma Qcpower_nonzero (x : Qc) (n : nat) : x ≠ 0 → x ^ n ≠ 0.
Proof.
  intros Hx. induction n as [|n IH]; simpl.
  - discriminate.
  - intros H. apply Qcmult_integral in H. tauto.
Qed.

(** ** Sequencing *)

Lemma bind_Ret {A B} (m : result A) (k : A → result B) (b : B) :
  m ≫= k = Ret b ↔ ∃ a, m = Ret a ∧ k a = Ret b.
Proof.
  destruct m as [a|e]; simpl; split.
  - eauto.
  - by intros (? & [= <-] & ?).
  - discriminate.
  - by intros (? & [=] & ?).
Qed.

Lemma getitem_Ret {A} (d : gmap string A) (k : string) (v : A) :
  getitem d k = Ret v ↔ d !! k = Some v.
Proof. unfold getitem. destruct (d !! k); split; congruence. Qed.

Lemma getitem_Raise {A} (d : gmap string A) (k : string) :
  d !! k = None → getitem d k = Raise (KeyError k).
Proof. unfold getitem. by intros ->. Qed.

(** ** Finite numbers

    On numbers with a finite value the operations of either kind compute
    the rational result. *)

Section finite.
Context (x y : num) (a b : Qc).
Hypothesis Hx : Num.real_of x = Some a.
Hypothesis Hy : Num.real_of y = Some b.

Lemma real_of_neg : Num.real_of (Num.neg x) = Some (- a).
Proof using Hx. by destruct x as [?|[]]; simplify_eq/=. Qed.

Lemma real_of_add : Num.real_of (Num.add x y) = Some (a + b).
Proof using Hx Hy. by destruct x as [?|[]], y as [?|[]]; simplify_eq/=. Qed.

Lemma real_of_sub : Num.real_of (Num.sub x y) = Some (a - b).
Proof using Hx Hy. by destruct x as [?|[]], y as [?|[]]; simplify_eq/=. Qed.

Lemma real_of_mul : Num.real_of (Num.mul x y) = Some (a * b).
Proof using Hx Hy. by destruct x as [?|[]], y as [?|[]]; simplify_eq/=. Qed.

Lemma div_nonzero :
  b ≠ 0 → ∃ z, Num.div x y = Ret z ∧ Num.real_of z = Some (a / b).
Proof using Hx Hy.
  intros Hb.
  destruct x as [?|[]], y as [?|[]]; simplify_eq/=;
    unfold Num.div; simpl; case_decide; try done; eauto.
Qed.

Lemma gt_finite : Num.gt x y = true ↔ b < a.
Proof using Hx Hy.
  unfold Num.gt.
  destruct x as [?|[]], y as [?|[]]; simplify_eq/=; apply bool_decide_eq_true.
Qed.
End finite.

(** [max(0, cf)] keeps a positive finite [cf] and replaces any other by the
    [int] 0. *)
Lemma max_zero_finite (cf : num) (p : Qc) :
  Num.real_of cf = Some p →
  Num.max (PyNum 0) cf = (if decide (0 < p) then cf else PyNum 0).
Proof.
  intros Hcf. unfold Num.max.
  pose proof (gt_finite cf (PyNum 0) p 0 Hcf eq_refl) as Hgt.
  destruct (Num.gt cf (PyNum 0)); case_decide as Hp; try done.
  - by destruct Hp; apply Hgt.
  - by apply Hgt in Hp.
Qed.

Lemma real_of_max_zero (cf : num) (p : Qc) :
  Num.real_of cf = Some p →
  Num.real_of (Num.max (PyNum 0) cf) = Some (if decide (0 < p) then p else 0).
Proof. intros Hcf. rewrite (max_zero_finite cf p Hcf). by case_decide. Qed.

(** ** The regression line through three yearly costs *)

Lemma fit_past_years (c1 c2 c3 : Qc) :
  LinearRegression.fit past_years [c1; c2; c3] =
    {| LinearRegression.coef_ := (c3 - c1) / lit 2;
       LinearRegression.intercept_ := (c1 + c2 + c3) / lit 3 - (c3 - c1) |}.
Proof.
  unfold LinearRegression.fit, LinearRegression.mean, qsum,
    past_years; simpl.
  f_equal; qc_field.
Qed.

(** The fitted line is the least-squares one: no other line has a smaller
    sum of squared residuals on the three points. *)
Lemma fit_past_years_least_squares (c1 c2 c3 a b : Qc) :
  let m := LinearRegression.fit past_years [c1; c2; c3] in
  LinearRegression.sse (LinearRegression.intercept_ m) (LinearRegression.coef_ m)
      past_years [c1; c2; c3]
    ≤ LinearRegression.sse a b past_years [c1; c2; c3].
Proof.
  rewrite fit_past_years.
  unfold LinearRegression.sse, qsum, past_years; simpl.
  qc_unfold.
  pose proof (Qsqr_nonneg (a - ((c1 + c2 + c3) / 3 - (c3 - c1))
                           + 2 * (b - (c3 - c1) / 2))) as H1.
  pose proof (Qsqr_nonneg (b - (c3 - c1) / 2)) as H2.
  apply Qle_minus_iff.
  match goal with |- (0 <= ?e)%Q =>
    assert (e == 3 * (a - ((c1 + c2 + c3) / 3 - (c3 - c1))
                      + 2 * (b - (c3 - c1) / 2)) ^ 2
                 + 2 * (b - (c3 - c1) / 2) ^ 2)%Q as -> by field
  end.
  lra.
Qed.

(** ** CostProjector: [predict_operating_costs] *)

Lemma predict_operating_costs_three (c1 c2 c3 : Qc) :
  predict_operating_costs [c1; c2; c3] =
    Ret ((λ cf, Num.max (PyNum 0) cf) <$>
           LinearRegression.predict
             (LinearRegression.fit past_years [c1; c2; c3]) future_years).
Proof. reflexivity. Qed.


Example predict_operating_costs_two :
  predict_operating_costs [lit 1000; lit 1100] = Raise length_error.
Proof. reflexivity. Qed.

Example predict_operating_costs_four :
  predict_operating_costs [lit 1000; lit 1100; lit 1200; lit 1300]
    = Raise length_error.
Proof. reflexivity. Qed.



(** The clamp is why the costs of C3 must not be negative: a flat history
    below zero is projected to zeros. *)
Remark negative_flat_history_clamped :
  predict_operating_costs [- lit 1; - lit 1; - lit 1]
    = Ret [PyNum 0; PyNum 0; PyNum 0; PyNum 0; PyNum 0].
Proof. reflexivity. Qed.



(** A rising history is projected along its line. *)
Example rising_history_projected :
  predict_operating_costs [lit 1000; lit 1100; lit 1300]
    = Ret (NpNum ∘ Fin ∘ lit <$>
             [4300 # 3; 4750 # 3; 5200 # 3; 5650 # 3; 6100 # 3]%Q).
Proof. qc_compute. Qed.

(** On a falling history the line goes below zero and the clamp applies. *)
Example falling_history_clamped :
  predict_operating_costs [lit 1000; lit 500; lit 300]
    = Ret [PyNum 0; PyNum 0; PyNum 0; PyNum 0; PyNum 0].
Proof. reflexivity. Qed.

(** ** ValuationEngine: [calculate_pv] *)

Lemma enumerate_app {A} (l1 l2 : list A) (k : nat) :
  enumerate (l1 ++ l2) k = enumerate l1 k ++ enumerate l2 (k + length l1).
Proof.
  revert k. induction l1 as [|x l1 IH]; intros k; simpl.
  - by rewrite Nat.add_0_r.
  - by rewrite IH, Nat.add_succ_r.
Qed.

Lemma qsum_app (l1 l2 : list Qc) :
  qsum (l1 ++ l2)
    = qsum l1 + qsum l2.
Proof.
  unfold qsum.
  induction l1 as [|x l1 IH]; simpl; [by rewrite Qcplus_0_l|].
  rewrite IH. ring.
Qed.

Lemma qsum_discounted_formula (qs : list Qc) (rate : Qc) :
  qsum (discounted rate <$> enumerate qs 0)
    = present_value_formula qs rate.
Proof.
  unfold present_value_formula.
  induction qs as [|q qs IH] using rev_ind; [done|].
  rewrite enumerate_app, fmap_app, qsum_app, IH, length_app; simpl.
  rewrite Nat.add_1_r, seq_S, fmap_app, qsum_app; simpl.
  rewrite lookup_app_r, Nat.sub_diag by done; simpl.
  f_equal. f_equal.
  apply list_fmap_ext. intros i t Ht.
  apply lookup_seq in Ht as [-> Hlt]. by rewrite lookup_app_l.
Qed.

Lemma comprehension_discount (rate : Qc) (flows : list num) (qs : list Qc) (k : nat) :
  1 + rate ≠ 0 →
  finite_flows flows qs →
  ∃ terms,
    comprehension (λ '(year, cf), Num.div cf (PyNum ((1 + rate) ^ year)))
      (enumerate flows k) = Ret terms ∧
    finite_flows terms (discounted rate <$> enumerate qs k).
Proof.
  intros Hrate Hflows. revert k.
  induction Hflows as [|x q flows qs Hx _ IH]; intros k; simpl.
  - exists []. split; [done | constructor].
  - destruct (div_nonzero x (PyNum ((1 + rate) ^ k)) q ((1 + rate) ^ k) Hx eq_refl)
      as (z & -> & Hz); [by apply Qcpower_nonzero|].
    destruct (IH (S k)) as (terms & -> & Hterms). simpl.
    exists (z :: terms). split; [done|]. by constructor.
Qed.

Lemma real_of_sum (terms : list num) (ts : list Qc) :
  finite_flows terms ts →
  Num.real_of (Num.sum terms) = Some (qsum ts).
Proof.
  unfold Num.sum. intros Hterms.
  assert (∀ acc a, Num.real_of acc = Some a →
    Num.real_of (foldl Num.add acc terms) = Some (a + qsum ts))
    as Hacc.
  { induction Hterms as [|x t terms ts Hx _ IH]; intros acc a Hacc; simpl.
    - by rewrite Qcplus_0_r.
    - rewrite (IH _ (a + t)) by by apply real_of_add.
      f_equal. unfold qsum. simpl. ring. }
  rewrite (Hacc (PyNum 0) 0 eq_refl). by rewrite Qcplus_0_l.
Qed.

Lemma calculate_pv_finite (flows : list num) (qs : list Qc) (rate : Qc) :
  1 + rate ≠ 0 →
  finite_flows flows qs →
  ∃ pv, calculate_pv flows rate = Ret pv ∧
        Num.real_of pv = Some (present_value_formula qs rate).
Proof.
  intros Hrate Hflows. unfold calculate_pv.
  destruct (comprehension_discount rate flows qs 0 Hrate Hflows)
    as (terms & -> & Hterms). simpl.
  eexists; split; [done|].
  by rewrite (real_of_sum _ _ Hterms), qsum_discounted_formula.
Qed.




(** With [numpy.float64] flows the same rate gives [nan] instead. *)
Example calculate_pv_rate_minus_one_numpy :
  calculate_pv [NpNum (Fin (lit 5)); NpNum (Fin 0)] (- lit 1) = Ret (NpNum NaN).
Proof. reflexivity. Qed.

(** Two years discounted at 5%: 1050 / 1.05 + 2205 / 1.05 ^ 2 = 3000. *)
Example calculate_pv_two_years :
  calculate_pv [PyNum 0; PyNum (- lit 1050); PyNum (- lit 2205)] (lit 0.05)
    = Ret (PyNum (- lit 3000)).
Proof. reflexivity. Qed.

(** ** CashFlowBuilder: the two cash-flow series *)

Lemma cash_flow_five (first c1 c2 c3 c4 c5 residual : num) (rest : list num) :
  cash_flow first (c1 :: c2 :: c3 :: c4 :: c5 :: rest) residual =
    Ret [first; Num.neg c1; Num.neg c2; Num.neg c3; Num.neg c4;
         Num.add (Num.neg c5) residual].
Proof. reflexivity. Qed.

Lemma cash_flow_Ret (first residual : num) (costs flow : list num) :
  cash_flow first costs residual = Ret flow →
  ∃ c1 c2 c3 c4 c5 rest, costs = c1 :: c2 :: c3 :: c4 :: c5 :: rest.
Proof.
  destruct costs as [|c1 [|c2 [|c3 [|c4 [|c5 rest]]]]]; try done.
  intros _. by exists c1, c2, c3, c4, c5, rest.
Qed.

Lemma predict_operating_costs_Ret (operating_costs : list Qc) (out : list num) :
  predict_operating_costs operating_costs = Ret out →
  ∃ p1 p2 p3 p4 p5, out = [p1; p2; p3; p4; p5].
Proof.
  unfold predict_operating_costs. case_decide; [done|].
  intros [= <-]. simpl. eauto 6.
Qed.

(** Splits a successful run of the results page into its steps. *)
Ltac page_steps H :=
  unfold results_page in H;
  repeat (apply bind_Ret in H as (? & ? & H);
          try match type of H with
              | (let '(_, _) := ?p in _) = _ => destruct p
              end);
  injection H as <-;
  repeat match goal with
  | H' : getitem _ _ = Ret _ |- _ => apply getitem_Ret in H'
  end.

(** C6. A cash flow built from an acquisition delta, five operating costs
    and a residual value has six periods: the delta, the four negated
    costs of years 1 to 4, and the negated fifth cost plus the residual
    value.  On the results page the delta is 0 for keeping and the market
    value minus the buying price for replacing, and each residual value is
    the price times [(1 - depreciation rate) ^ 5]. *)
Theorem cash_flows_built :
  (∀ first c1 c2 c3 c4 c5 residual,
     cash_flow first [c1; c2; c3; c4; c5] residual =
       Ret [first; Num.neg c1; Num.neg c2; Num.neg c3; Num.neg c4;
            Num.add (Num.neg c5) residual]) ∧
  (∀ data i r, results_page data i = Ret r →
     ∃ p1 p2 p3 p4 p5 nationality price k1 k2 k3 k4 k5 rest,
       predict_operating_costs (defender_operating_costs i)
         = Ret [p1; p2; p3; p4; p5] ∧
       challenger_nationality !! challenger_car i = Some nationality ∧
       challenger_buying_prices data !! challenger_car i = Some price ∧
       challenger_operating_costs_data data !! challenger_car i
         = Some (k1 :: k2 :: k3 :: k4 :: k5 :: rest) ∧
       cash_flow_defender r =
         [PyNum 0; Num.neg p1; Num.neg p2; Num.neg p3; Num.neg p4;
          Num.add (Num.neg p5)
            (Num.mul (PyNum (defender_market_value i))
               (PyNum ((1 - dep_rate (origin_defender i)) ^ 5)))] ∧
       cash_flow_challenger r =
         [Num.sub (PyNum (defender_market_value i)) price;
          Num.neg k1; Num.neg k2; Num.neg k3; Num.neg k4;
          Num.add (Num.neg k5)
            (Num.mul price (PyNum ((1 - dep_rate nationality) ^ 5)))]).
Proof.
  split; [intros; apply cash_flow_five|].
  intros data i r H. page_steps H.
  repeat match goal with
  | H' : predict_operating_costs _ = Ret _ |- _ =>
      destruct (predict_operating_costs_Ret _ _ H') as (? & ? & ? & ? & ? & ->)
  | H' : cash_flow _ ?costs _ = Ret _ |- _ =>
      is_var costs;
      destruct (cash_flow_Ret _ _ _ _ H') as (? & ? & ? & ? & ? & ? & ->)
  | H' : cash_flow _ (_ :: _) _ = Ret _ |- _ =>
      rewrite cash_flow_five in H'; injection H' as <-
  end.
  simpl. eauto 20.
Qed.


Lemma cash_flows_built_witness :
  ∃ r, results_page demo_data demo_inputs = Ret r ∧
       cash_flow_defender r =
         [PyNum 0; NpNum (Fin (- lit 1000)); NpNum (Fin (- lit 1000));
          NpNum (Fin (- lit 1000)); NpNum (Fin (- lit 1000));
          NpNum (Fin (- lit 1000 + lit 11000 * lit 0.89 ^ 5))] ∧
       length (cash_flow_challenger r) = 6%nat.
Proof.
  destruct (results_page demo_data demo_inputs) as [r|e] eqn:Hr;
    [|by vm_compute in Hr].
  exists r. split; [done|].
  destruct cash_flows_built as [_ Hpage].
  destruct (Hpage demo_data demo_inputs r Hr)
    as (p1 & p2 & p3 & p4 & p5 & nationality & price & k1 & k2 & k3 & k4 & k5
        & rest & Hp & Hn & _ & _ & -> & ->).
  split; [|done].
  vm_compute in Hp. vm_compute in Hn.
  injection Hp as <- <- <- <- <-. injection Hn as <-.
  qc_compute.
Defined.

(** ** ScoreComposer: the cost scores *)

Lemma cost_scores_nonzero_total (defender_pv challenger_pv : num) (a b : Qc) :
  Num.real_of defender_pv = Some a →
  Num.real_of challenger_pv = Some b →
  a + b ≠ 0 →
  ∃ sd sc,
    cost_scores defender_pv challenger_pv = Ret (sd, sc) ∧
    Num.real_of sd = Some (b / (a + b)) ∧
    Num.real_of sc = Some (a / (a + b)).
Proof.
  intros Ha Hb Hab. unfold cost_scores.
  pose proof (real_of_add _ _ _ _ Ha Hb) as Htotal.
  destruct (div_nonzero _ _ _ _ Hb Htotal Hab) as (sd & -> & Hsd).
  destruct (div_nonzero _ _ _ _ Ha Htotal Hab) as (sc & -> & Hsc).
  by exists sd, sc.
Qed.



Example cost_scores_quarters :
  cost_scores (NpNum (Fin (lit 3000))) (PyNum (lit 9000))
    = Ret (NpNum (Fin (lit 0.75)), NpNum (Fin (lit 0.25))).
Proof. qc_compute. Qed.

(** C8 as stated fails: the source divides by [total_pv] without a test,
    and with a [numpy.float64] present value nothing is raised. *)
Lemma cost_scores_zero_numpy :
  cost_scores (NpNum (Fin 0)) (PyNum 0) = Ret (NpNum NaN, NpNum NaN) ∧
  ¬ (∀ defender_pv challenger_pv,
       Num.real_of defender_pv = Some 0 →
       Num.real_of challenger_pv = Some 0 →
       ∃ e, cost_scores defender_pv challenger_pv = Raise e).
Proof.
  split; [reflexivity|].
  intros H. by destruct (H (NpNum (Fin 0)) (PyNum 0) eq_refl eq_refl) as [e He].
Qed.

(** C8, as the code has it.  When the two present values sum to zero, the
    division by [total_pv] raises [ZeroDivisionError] if both are Python
    numbers; if one is a [numpy.float64], nothing is raised and neither
    cost score is finite: both are [nan] when both present values are
    zero. *)
Theorem cost_scores_zero_total (defender_pv challenger_pv : num) (a b : Qc) :
  Num.real_of defender_pv = Some a →
  Num.real_of challenger_pv = Some b →
  a + b = 0 →
  match defender_pv, challenger_pv with
  | PyNum _, PyNum _ =>
      cost_scores defender_pv challenger_pv = Raise ZeroDivisionError
  | _, _ =>
      ∃ sd sc,
        cost_scores defender_pv challenger_pv = Ret (NpNum sd, NpNum sc) ∧
        Num.real_of (NpNum sd) = None ∧
        Num.real_of (NpNum sc) = None ∧
        (a = 0 → sd = NaN ∧ sc = NaN)
  end.
Proof.
  intros Ha Hb Hab.
  assert (a = 0 → b = 0) as Hab' by (intros ->; by rewrite Qcplus_0_l in Hab).
  assert (∀ q : Qc, q ≠ 0 → Num.real_of (NpNum (F64.signed_inf (q ?= 0) Gt)) = None)
    as Hinf.
  { intros q Hq. destruct (q ?= 0) eqn:Hcmp; [|done..].
    by apply Qceq_alt in Hcmp. }
  destruct defender_pv as [a'|[a'| | |]], challenger_pv as [b'|[b'| | |]];
    simplify_eq/=; unfold cost_scores, Num.div; simpl;
    (case_decide; [|done]); [done|..];
    (eexists _, _; split; [done|]; split_and!;
      [ destruct (decide (b = 0)) as [->|]; [done|by apply Hinf]
      | destruct (decide (a = 0)) as [->|]; [done|by apply Hinf]
      | intros ->; by rewrite (Hab' eq_refl) ]).
Qed.

Lemma cost_scores_zero_total_witness :
  ∃ sd sc,
    cost_scores (NpNum (Fin 0)) (PyNum 0) = Ret (NpNum sd, NpNum sc) ∧
    Num.real_of (NpNum sd) = None ∧
    Num.real_of (NpNum sc) = None ∧
    ((0 : Qc) = 0 → sd = NaN ∧ sc = NaN).
Proof.
  apply (cost_scores_zero_total (NpNum (Fin 0)) (PyNum 0) 0 0); reflexivity.
Defined.

Example cost_scores_zero_python :
  cost_scores (PyNum 0) (PyNum 0) = Raise ZeroDivisionError.
Proof. reflexivity. Qed.

Example cost_scores_opposite_numpy :
  cost_scores (NpNum (Fin (- lit 5000))) (PyNum (lit 5000))
    = Ret (NpNum PInf, NpNum NInf).
Proof. reflexivity. Qed.

(** ** ScoreComposer: the lookup tables *)

Lemma unknown_nationality (nationality : string) :
  nationality ∉ nationalities →
  reliability_scores !! nationality = None ∧
  safety_scores !! nationality = None ∧
  depreciation_rates !! nationality = None.
Proof.
  unfold nationalities. rewrite !not_elem_of_cons. intros (?&?&?&?&_).
  unfold reliability_scores, safety_scores, depreciation_rates; simpl.
  by rewrite !lookup_insert_ne, !lookup_empty by done.
Qed.

Lemma known_nationality (nationality : string) :
  nationality ∈ nationalities →
  ∃ r s, reliability_scores !! nationality = Some r ∧
         safety_scores !! nationality = Some s.
Proof.
  unfold nationalities. rewrite !elem_of_cons, elem_of_nil.
  intros [->|[->|[->|[->|[]]]]]; by eexists _, _.
Qed.

Lemma slider_weights_score (cost_score style_score reliability_score
    fuel_economy_score safety_score : num)
    (style reliability cost fuel_economy safety : Z) :
  calculate_weighted_score cost_score style_score reliability_score
      fuel_economy_score safety_score
      (slider_weights style reliability cost fuel_economy safety)
    = Ret (weighted_sum cost_score style_score reliability_score
             fuel_economy_score safety_score
             cost style reliability fuel_economy safety).
Proof. reflexivity. Qed.



Example tables_of_the_four :
  (λ n, (reliability_scores !! n, safety_scores !! n)) <$> nationalities
    = [(Some (lit 0.9), Some (lit 0.7)); (Some (lit 0.8), Some (lit 0.8));
       (Some (lit 0.8), Some (lit 0.85)); (Some (lit 0.7), Some (lit 0.9))].
Proof. reflexivity. Qed.

(** The nationality of a challenger is always one of the four. *)
Lemma challenger_nationality_known (car nationality : string) :
  challenger_nationality !! car = Some nationality →
  nationality ∈ nationalities.
Proof.
  unfold challenger_nationality; simpl. intros H.
  repeat (apply lookup_insert_Some in H as [[_ <-]|[_ H]];
          [unfold nationalities; set_solver|]).
  done.
Qed.

(** C10. For a nationality that the depreciation table does not have, the
    rate is the default 0.1 and the residual value is the price times
    [0.9 ^ 5]; nothing is raised. *)
Theorem unknown_nationality_default_depreciation
    (nationality : string) (price : num) (p : Qc) :
  depreciation_rates !! nationality = None →
  Num.real_of price = Some p →
  dep_rate nationality = lit 0.1 ∧
  residual_value price (dep_rate nationality)
    = Num.mul price (PyNum (lit 0.9 ^ 5)) ∧
  Num.real_of (residual_value price (dep_rate nationality))
    = Some (p * lit 0.9 ^ 5).
Proof.
  intros Hnone Hprice.
  assert (dep_rate nationality = lit 0.1) as ->.
  { unfold dep_rate, Py.get. by rewrite Hnone. }
  assert (1 - lit 0.1 = lit 0.9) as Hrate by (by apply Qc_is_canon).
  unfold residual_value. rewrite Hrate. split_and!; [done..|].
  by apply real_of_mul.
Qed.

Lemma unknown_nationality_default_depreciation_witness :
  dep_rate "Martian" = lit 0.1 ∧
  residual_value (PyNum (lit 11000)) (dep_rate "Martian")
    = Num.mul (PyNum (lit 11000)) (PyNum (lit 0.9 ^ 5)) ∧
  Num.real_of (residual_value (PyNum (lit 11000)) (dep_rate "Martian"))
    = Some (lit 11000 * lit 0.9 ^ 5).
Proof.
  apply (unknown_nationality_default_depreciation "Martian" (PyNum (lit 11000)));
    reflexivity.
Defined.

Example residual_value_martian :
  Num.real_of (residual_value (PyNum (lit 11000)) (dep_rate "Martian"))
    = Some (lit 6495.39).
Proof. qc_compute. Qed.

Example rates_of_the_four :
  dep_rate <$> nationalities = [lit 0.11; lit 0.13; lit 0.15; lit 0.18].
Proof. reflexivity. Qed.

(** ** DecisionEngine: the recommendation *)

Lemma recommendation_gt (c d : num) :
  (recommendation c d = REPLACE ↔ Num.gt c d = true) ∧
  (recommendation c d = KEEP ↔ Num.gt c d = false).
Proof. unfold recommendation. destruct (Num.gt c d); by split. Qed.

Lemma results_page_recommended (data : dataset) (i : inputs) (r : report) :
  results_page data i = Ret r →
  recommended r
    = recommendation (challenger_weighted_score r) (defender_weighted_score r).
Proof. intros H. by page_steps H. Qed.

(** C1. The page recommends replacing exactly when the weighted score of
    the challenger is strictly greater than that of the defender (Python's
    [>], which on finite scores is the order of their values); on equal
    scores it recommends keeping. *)
Theorem recommendation_strict :
  (∀ c d, recommendation c d = REPLACE ↔ Num.gt c d = true) ∧
  (∀ c d qc qd,
     Num.real_of c = Some qc → Num.real_of d = Some qd →
     (recommendation c d = REPLACE ↔ qd < qc) ∧
     (recommendation c d = KEEP ↔ qc ≤ qd) ∧
     (qc = qd → recommendation c d = KEEP)) ∧
  (∀ data i r, results_page data i = Ret r →
     recommended r
       = recommendation (challenger_weighted_score r) (defender_weighted_score r)).
Proof.
  split_and!; [apply recommendation_gt| |apply results_page_recommended].
  intros c d qc qd Hc Hd.
  destruct (recommendation_gt c d) as [Hrep Hkeep].
  pose proof (gt_finite c d qc qd Hc Hd) as Hgt.
  assert (recommendation c d = KEEP ↔ qc ≤ qd) as Hle.
  { rewrite Hkeep, Qcle_ngt, <-Hgt. by destruct (Num.gt c d). }
  split_and!; [by rewrite Hrep | done |].
  intros ->. by apply Hle.
Qed.

Lemma recommendation_strict_witness :
  ∃ r, results_page demo_data demo_inputs = Ret r ∧ recommended r = KEEP.
Proof.
  destruct (results_page demo_data demo_inputs) as [r|e] eqn:Hr;
    [|by vm_compute in Hr].
  exists r. split; [done|].
  destruct recommendation_strict as (_ & _ & Hpage).
  rewrite (Hpage demo_data demo_inputs r Hr).
  vm_compute in Hr. by simplify_eq.
Defined.

Example recommendation_tie :
  recommendation (NpNum (Fin (lit 5.5))) (PyNum (lit 5.5)) = KEEP.
Proof. reflexivity. Qed.

Example recommendation_replace :
  recommendation (NpNum (Fin (lit 5.6))) (NpNum (Fin (lit 5.5))) = REPLACE.
Proof. reflexivity. Qed.

(** A score that is [nan] is not greater than any other. *)
Example recommendation_nan :
  recommendation (NpNum NaN) (PyNum (lit 5.5)) = KEEP.
Proof. reflexivity. Qed.

(** With all the weight on style (0.9 against 0.6 by default) the page
    recommends the challenger. *)
Example results_page_replace :
  (r ← results_page demo_data
         {| defender_market_value := lit 11000;
            defender_operating_costs := [lit 1000; lit 1000; lit 1000];
            defender_fuel_economy_kmpl := lit 12.7;
            style_score_defender_input := 6;
            origin_defender := "Japanese";
            challenger_car := "Toyota Camry";
            style_score_challenger_input := 9;
            weights := slider_weights 10 0 0 0 0 |};
   mret (recommended r)) = Ret REPLACE.
Proof. by vm_compute. Qed.

(** The default scenario: keeping is worth 5482970168/11344725 (about
    483.31) at 5%, the residual value outweighing five years of costs. *)
Example demo_defender_pv :
  (r ← results_page demo_data demo_inputs; mret (Num.real_of (defender_pv r)))
    = Ret (Some (lit (5482970168 # 11344725))).
Proof. qc_compute. Qed.

(** * Further properties *)

(** ** [format_cash_flows] *)

Lemma lt_finite (x y : num) (a b : Qc) :
  Num.real_of x = Some a → Num.real_of y = Some b →
  Builtin.lt x y = true ↔ a < b.
Proof. intros Hx Hy. unfold Builtin.lt. apply (gt_finite y x b a Hy Hx). Qed.

Lemma real_of_abs_negative (x : num) (a : Qc) :
  Num.real_of x = Some a → a < 0 → Num.real_of (Builtin.abs x) = Some (- a).
Proof.
  intros Hx Ha. destruct x as [?|[]]; simplify_eq/=; by rewrite decide_True.
Qed.

(** X1. [format_cash_flows] returns two series as long as its argument; at
    each period with a finite cash flow [q], the inflow and the outflow are
    not negative, at most one of them is not zero, and their difference is
    [q]. *)
Theorem format_cash_flows_split (cash_flows inflows outflows : list num) :
  format_cash_flows cash_flows = (inflows, outflows) →
  length inflows = length cash_flows ∧
  length outflows = length cash_flows ∧
  ∀ t cf q,
    cash_flows !! t = Some cf → Num.real_of cf = Some q →
    ∃ u v a b,
      inflows !! t = Some u ∧ outflows !! t = Some v ∧
      Num.real_of u = Some a ∧ Num.real_of v = Some b ∧
      0 ≤ a ∧ 0 ≤ b ∧ (a = 0 ∨ b = 0) ∧ a - b = q.
Proof.
  unfold format_cash_flows. intros [= <- <-].
  rewrite !length_fmap. split_and!; [done..|].
  intros t cf q Ht Hq. rewrite !list_lookup_fmap, Ht; simpl.
  pose proof (gt_finite cf (PyNum 0) q 0 Hq eq_refl) as Hgt.
  pose proof (lt_finite cf (PyNum 0) q 0 Hq eq_refl) as Hlt.
  destruct (Num.gt cf (PyNum 0)) eqn:Egt, (Builtin.lt cf (PyNum 0)) eqn:Elt.
  - assert (0 < q) as H1 by by apply Hgt.
    assert (q < 0) as H2 by by apply Hlt.
    destruct (Qclt_not_le _ _ H1). by apply Qclt_le_weak.
  - assert (0 < q) as H1 by by apply Hgt.
    exists cf, (PyNum 0), q, 0. split_and!; try done.
    + by apply Qclt_le_weak.
    + by right.
    + ring.
  - assert (q < 0) as H2 by by apply Hlt.
    exists (PyNum 0), (Builtin.abs cf), 0, (- q). split_and!; try done.
    + by apply real_of_abs_negative.
    + apply Qclt_le_weak. qc_to_q. lra.
    + by left.
    + ring.
  - assert (q = 0) as ->.
    { apply Qcle_antisym; apply Qcnot_lt_le; intros H.
      - apply Hgt in H. congruence.
      - apply Hlt in H. congruence. }
    exists (PyNum 0), (PyNum 0), 0, 0. split_and!; try done. by left.
Qed.

Lemma format_cash_flows_split_witness :
  ∃ u v a b,
    [PyNum 0; NpNum (Fin (lit 5))] !! 1%nat = Some u ∧
    [PyNum 0; PyNum 0] !! 1%nat = Some v ∧
    Num.real_of u = Some a ∧ Num.real_of v = Some b ∧
    0 ≤ a ∧ 0 ≤ b ∧ (a = 0 ∨ b = 0) ∧ a - b = lit 5.
Proof.
  destruct (format_cash_flows_split
              [PyNum 0; NpNum (Fin (lit 5))]
              [PyNum 0; NpNum (Fin (lit 5))] [PyNum 0; PyNum 0] eq_refl)
    as (_ & _ & H).
  apply (H 1%nat (NpNum (Fin (lit 5))) (lit 5)); reflexivity.
Defined.

(** X2. A cash flow that is [nan] is neither an inflow nor an outflow: both
    series show the [int] 0 for it; an infinite one is kept, as [inf], on
    its side. *)
Theorem format_cash_flows_special (before after : list num) (x : float64) :
  Num.real_of (NpNum x) = None →
  ∃ u v,
    (format_cash_flows (before ++ NpNum x :: after)).1 !! length before = Some u ∧
    (format_cash_flows (before ++ NpNum x :: after)).2 !! length before = Some v ∧
    match x with
    | PInf => u = NpNum PInf ∧ v = PyNum 0
    | NInf => u = PyNum 0 ∧ v = NpNum PInf
    | _ => u = PyNum 0 ∧ v = PyNum 0
    end.
Proof.
  intros Hx. unfold format_cash_flows; simpl.
  rewrite !fmap_app, !fmap_cons.
  rewrite !(list_lookup_middle _ _ _ (length before)) by by rewrite length_fmap.
  eexists _, _. split_and!; [done..|].
  by destruct x.
Qed.

Lemma format_cash_flows_special_witness :
  format_cash_flows [PyNum (lit 5); NpNum NaN; NpNum NInf]
    = ([PyNum (lit 5); PyNum 0; PyNum 0], [PyNum 0; PyNum 0; NpNum PInf]) ∧
  ∃ u v,
    (format_cash_flows ([PyNum (lit 5)] ++ NpNum NaN :: [NpNum NInf])).1 !! 1%nat
      = Some u ∧
    (format_cash_flows ([PyNum (lit 5)] ++ NpNum NaN :: [NpNum NInf])).2 !! 1%nat
      = Some v ∧
    u = PyNum 0 ∧ v = PyNum 0.
Proof.
  split; [reflexivity|].
  apply (format_cash_flows_special [PyNum (lit 5)] [NpNum NInf] NaN). reflexivity.
Defined.

(** ** The weights: the input page and [calculate_weighted_score] *)

Lemma input_weights_sliders (slider : string → Z) :
  input_weights slider
    = slider_weights (slider "Style") (slider "Reliability") (slider "Cost")
        (slider "Fuel Economy") (slider "Safety").
Proof.
  apply map_eq. intros k.
  unfold input_weights, slider_weights; simpl.
  change (weight_key "Style") with "style".
  change (weight_key "Reliability") with "reliability".
  change (weight_key "Cost") with "cost".
  change (weight_key "Fuel Economy") with "fuel_economy".
  change (weight_key "Safety") with "safety".
  rewrite !lookup_insert.
  repeat case_decide; simplify_eq; done.
Qed.

(** X3. The keys of the [weights] dict that the input page builds are those
    that [calculate_weighted_score] reads: whatever the sliders show, the
    weighted score of that dict is returned, never a [KeyError], and it is
    the sum of the five scores each multiplied by the slider of its factor. *)
Theorem input_weights_score (slider : string → Z)
    (cost_score style_score reliability_score fuel_economy_score safety_score : num) :
  calculate_weighted_score cost_score style_score reliability_score
      fuel_economy_score safety_score (input_weights slider)
    = Ret (weighted_sum cost_score style_score reliability_score
             fuel_economy_score safety_score
             (slider "Cost") (slider "Style") (slider "Reliability")
             (slider "Fuel Economy") (slider "Safety")).
Proof. rewrite input_weights_sliders. apply slider_weights_score. Qed.

(** The sliders start at 4 for style and cost and at 1 for the others. *)
Example input_weights_default :
  input_weights default_weight = slider_weights 4 1 4 1 1.
Proof. apply input_weights_sliders. Qed.

Lemma calculate_weighted_score_first_missing
    (cost_score style_score reliability_score fuel_economy_score safety_score : num)
    (weights : gmap string num) :
  match list_find (λ k, weights !! k = None) weight_keys with
  | Some (_, k) =>
      calculate_weighted_score cost_score style_score reliability_score
        fuel_economy_score safety_score weights = Raise (KeyError k)
  | None =>
      ∃ score,
        calculate_weighted_score cost_score style_score reliability_score
          fuel_economy_score safety_score weights = Ret score
  end.
Proof.
  unfold calculate_weighted_score, weight_keys, getitem; simpl.
  destruct (weights !! "cost"), (weights !! "style"),
    (weights !! "reliability"), (weights !! "fuel_economy"),
    (weights !! "safety"); simpl; eauto.
Qed.

(** X4. [calculate_weighted_score] returns exactly when the dict has the
    five keys; otherwise it raises [KeyError] for the first key that is
    missing, in the order cost, style, reliability, fuel_economy, safety. *)
Theorem calculate_weighted_score_keys
    (cost_score style_score reliability_score fuel_economy_score safety_score : num)
    (weights : gmap string num) :
  ((∃ score,
      calculate_weighted_score cost_score style_score reliability_score
        fuel_economy_score safety_score weights = Ret score)
   ↔ Forall (λ k, is_Some (weights !! k)) weight_keys) ∧
  match list_find (λ k, weights !! k = None) weight_keys with
  | Some (_, k) =>
      calculate_weighted_score cost_score style_score reliability_score
        fuel_economy_score safety_score weights = Raise (KeyError k)
  | None =>
      ∃ score,
        calculate_weighted_score cost_score style_score reliability_score
          fuel_economy_score safety_score weights = Ret score
  end.
Proof.
  split; [|apply calculate_weighted_score_first_missing].
  unfold calculate_weighted_score, weight_keys, getitem.
  rewrite !Forall_cons_iff, Forall_nil_iff.
  destruct (weights !! "cost"), (weights !! "style"),
    (weights !! "reliability"), (weights !! "fuel_economy"),
    (weights !! "safety"); simpl;
    (split; [intros [score Hscore]; try discriminate Hscore; by eauto 10
            |intros (H1 & H2 & H3 & H4 & H5 & _);
             try (by destruct H1); try (by destruct H2); try (by destruct H3);
             try (by destruct H4); try (by destruct H5); eauto]).
Qed.

Example calculate_weighted_score_no_style :
  calculate_weighted_score (PyNum 1) (PyNum 1) (PyNum 1) (PyNum 1) (PyNum 1)
    (delete "reliability" (delete "style" (slider_weights 4 1 4 1 1)))
    = Raise (KeyError "style").
Proof. reflexivity. Qed.

(** ** [calculate_pv]: errors and composition *)

Lemma Qcpower_zero_iff (x : Qc) (n : nat) : x ^ n = 0 ↔ x = 0 ∧ (1 ≤ n)%nat.
Proof.
  split.
  - intros H. destruct (decide (x = 0)) as [->|Hx].
    + split; [done|]. destruct n; [discriminate H|lia].
    + by apply (Qcpower_nonzero x n) in Hx.
  - intros [-> Hn]. destruct n; [lia|]. simpl. ring.
Qed.

Lemma div_Raise (x : num) (d : Qc) (e : exn) :
  Num.div x (PyNum d) = Raise e ↔
  e = ZeroDivisionError ∧ d = 0 ∧ ∃ q, x = PyNum q.
Proof.
  destruct x as [q|f]; simpl.
  - case_decide as Hd; split.
    + intros [= <-]. split_and!; eauto.
    + by intros (-> & _).
    + done.
    + by intros (_ & ? & _).
  - split; [done|]. by intros (_ & _ & ? & ?).
Qed.

Lemma comprehension_discount_Raise (rate : Qc) (flows : list num) (k : nat) (e : exn) :
  comprehension (λ '(year, cf), Num.div cf (PyNum ((1 + rate) ^ year)))
      (enumerate flows k) = Raise e ↔
  e = ZeroDivisionError ∧ 1 + rate = 0 ∧
  ∃ t q, (1 ≤ k + t)%nat ∧ flows !! t = Some (PyNum q).
Proof.
  revert k e. induction flows as [|x flows IH]; intros k e; simpl.
  - split; [done|]. by intros (_ & _ & t & q & _ & ?).
  - destruct (Num.div x (PyNum ((1 + rate) ^ k))) as [y|e'] eqn:Hdiv; simpl.
    + destruct (comprehension _ (enumerate flows (S k))) as [ys|e'] eqn:Hrest;
        simpl.
      * split; [done|]. intros (-> & Hrate & t & q & Ht & Hq).
        destruct t as [|t]; simpl in Hq.
        -- injection Hq as ->.
           assert (Num.div (PyNum q) (PyNum ((1 + rate) ^ k))
                     = Raise ZeroDivisionError) as Hraise.
           { apply div_Raise. split_and!; [done| |by eauto].
             apply Qcpower_zero_iff. split; [done|lia]. }
           congruence.
        -- assert (comprehension
                     (λ '(year, cf), Num.div cf (PyNum ((1 + rate) ^ year)))
                     (enumerate flows (S k)) = Raise ZeroDivisionError) as Habs.
           { apply IH. split_and!; [done..|]. exists t, q. split; [lia|done]. }
           congruence.
      * apply IH in Hrest as (-> & Hrate & t & q & Ht & Hq). split.
        -- intros [= <-]. split_and!; [done..|].
           exists (S t), q. split; [lia|done].
        -- by intros (-> & _).
    + apply div_Raise in Hdiv as (-> & Hpow & q & ->).
      apply Qcpower_zero_iff in Hpow as [Hrate Hk].
      split.
      * intros [= <-]. split_and!; [done..|]. exists 0%nat, q. split; [lia|done].
      * by intros (-> & _).
Qed.


Example calculate_pv_rate_minus_one_mixed :
  calculate_pv [PyNum (lit 5); NpNum (Fin (lit 1)); PyNum (lit 2)] (- lit 1)
    = Raise ZeroDivisionError ∧
  calculate_pv [PyNum (lit 5); NpNum (Fin (lit 1))] (- lit 1)
    = Ret (NpNum PInf) ∧
  calculate_pv [PyNum (lit 5)] (- lit 1) = Ret (PyNum (lit 5)).
Proof. split_and!; qc_compute. Qed.


Lemma finite_flows_length (flows : list num) (qs : list Qc) :
  finite_flows flows qs → length flows = length qs.
Proof. apply Forall2_length. Qed.

Lemma finite_flows_app (f1 f2 : list num) (q1 q2 : list Qc) :
  finite_flows f1 q1 → finite_flows f2 q2 → finite_flows (f1 ++ f2) (q1 ++ q2).
Proof. apply Forall2_app. Qed.

Lemma qsum_discounted_cons (rate q : Qc) (qs : list Qc) (k : nat) :
  qsum (discounted rate <$> enumerate (q :: qs) k)
    = q / (1 + rate) ^ k + qsum (discounted rate <$> enumerate qs (S k)).
Proof. reflexivity. Qed.

Lemma qsum_discounted_shift (rate : Qc) (qs : list Qc) (k : nat) :
  1 + rate ≠ 0 →
  qsum (discounted rate <$> enumerate qs k)
    = qsum (discounted rate <$> enumerate qs 0) / (1 + rate) ^ k.
Proof.
  intros Hrate.
  assert (∀ j, qsum (discounted rate <$> enumerate qs (S j))
               = qsum (discounted rate <$> enumerate qs j) / (1 + rate)) as Hstep.
  { induction qs as [|q qs IH]; intros j.
    - change (Q2Qc 0 = Q2Qc 0 / (1 + rate)). unfold Qcdiv. by rewrite Qcmult_0_l.
    - rewrite !qsum_discounted_cons, IH.
      pose proof (Qcpower_nonzero (1 + rate) j Hrate) as Hp.
      change ((1 + rate) ^ S j) with ((1 + rate) * (1 + rate) ^ j).
      generalize dependent ((1 + rate) ^ j). intros p Hp.
      generalize (qsum (discounted rate <$> enumerate qs (S j))). intros s.
      by field. }
  induction k as [|k IH].
  - change ((1 + rate) ^ 0) with (Q2Qc 1). by field.
  - rewrite Hstep, IH.
    pose proof (Qcpower_nonzero (1 + rate) k Hrate) as Hp.
    change ((1 + rate) ^ S k) with ((1 + rate) * (1 + rate) ^ k).
    generalize dependent ((1 + rate) ^ k). intros p _ Hp.
    by field.
Qed.

Lemma present_value_formula_app (rate : Qc) (q1 q2 : list Qc) :
  1 + rate ≠ 0 →
  present_value_formula (q1 ++ q2) rate
    = present_value_formula q1 rate
      + present_value_formula q2 rate / (1 + rate) ^ length q1.
Proof.
  intros Hrate.
  rewrite <-!qsum_discounted_formula, enumerate_app, fmap_app, qsum_app.
  f_equal. by apply qsum_discounted_shift.
Qed.



Lemma qsum_discounted_add (rate : Qc) (a b : list Qc) (k : nat) :
  length a = length b →
  qsum (discounted rate <$> enumerate (zip_with Qcplus a b) k)
    = qsum (discounted rate <$> enumerate a k)
      + qsum (discounted rate <$> enumerate b k).
Proof.
  revert b k. induction a as [|x a IH]; intros [|y b] k Hlen; try done.
  change (zip_with Qcplus (x :: a) (y :: b)) with (x + y :: zip_with Qcplus a b).
  rewrite !qsum_discounted_cons, IH by (simpl in Hlen; lia).
  unfold Qcdiv. ring.
Qed.

Lemma qsum_discounted_scale (rate c : Qc) (a : list Qc) (k : nat) :
  qsum (discounted rate <$> enumerate (Qcmult c <$> a) k)
    = c * qsum (discounted rate <$> enumerate a k).
Proof.
  revert k. induction a as [|x a IH]; intros k.
  - change (Q2Qc 0 = c * Q2Qc 0). by rewrite Qcmult_0_r.
  - rewrite fmap_cons, !qsum_discounted_cons, IH. unfold Qcdiv. ring.
Qed.

Lemma finite_flows_add (f g : list num) (qf qg : list Qc) :
  finite_flows f qf → finite_flows g qg →
  finite_flows (zip_with Num.add f g) (zip_with Qcplus qf qg).
Proof.
  intros Hf. revert g qg.
  induction Hf as [|x q f qf Hx _ IH]; intros g qg Hg; [constructor|].
  destruct Hg as [|y p g qg Hy Hg]; [constructor|].
  constructor; [by apply real_of_add|by apply IH].
Qed.

Lemma finite_flows_scale (c : Qc) (f : list num) (qf : list Qc) :
  finite_flows f qf →
  finite_flows (Num.mul (PyNum c) <$> f) (Qcmult c <$> qf).
Proof.
  induction 1 as [|x q f qf Hx _ IH]; [constructor|].
  constructor; [by apply (real_of_mul (PyNum c) x c q)|exact IH].
Qed.



(** ** [predict_operating_costs]: the shape of the projection *)

(** Linear arithmetic on rationals, with the halves and thirds of the
    regression written as fractions. *)
Ltac qc_lra :=
  qc_to_q;
  change (/ 2)%Q with (1 # 2)%Q in *; change (/ 3)%Q with (1 # 3)%Q in *;
  lra.

Lemma clamped_mono (x y : Qc) : x ≤ y → clamped x ≤ clamped y.
Proof. unfold clamped. intros H. repeat case_decide; qc_lra. Qed.

Lemma predict_operating_costs_values (c1 c2 c3 : Qc) :
  let slope := (c3 - c1) / lit 2 in
  let level := (c1 + c2 + c3) / lit 3 in
  ∃ o4 o5 o6 o7 o8,
    predict_operating_costs [c1; c2; c3] = Ret [o4; o5; o6; o7; o8] ∧
    Num.real_of o4 = Some (clamped (level + lit 2 * slope)) ∧
    Num.real_of o5 = Some (clamped (level + lit 3 * slope)) ∧
    Num.real_of o6 = Some (clamped (level + lit 4 * slope)) ∧
    Num.real_of o7 = Some (clamped (level + lit 5 * slope)) ∧
    Num.real_of o8 = Some (clamped (level + lit 6 * slope)).
Proof.
  intros slope level.
  rewrite predict_operating_costs_three, fit_past_years.
  unfold LinearRegression.predict, future_years; simpl.
  eexists _, _, _, _, _. split; [done|].
  rewrite !(real_of_max_zero (NpNum (Fin _)) _ eq_refl).
  assert (∀ year k : Qc, year = k + lit 2 →
    year * ((c3 - c1) / lit 2) + ((c1 + c2 + c3) / lit 3 - (c3 - c1))
      = level + k * slope) as Hline.
  { intros year k ->. unfold level, slope. qc_field. }
  rewrite (Hline (lit 4) (lit 2)), (Hline (lit 5) (lit 3)),
    (Hline (lit 6) (lit 4)), (Hline (lit 7) (lit 5)), (Hline (lit 8) (lit 6))
    by by apply Qc_is_canon.
  done.
Qed.






Example rising_history_continued :
  predict_operating_costs [lit 1000; lit 1100; lit 1200]
    = Ret (NpNum ∘ Fin ∘ lit <$> [1300; 1400; 1500; 1600; 1700]%Q).
Proof. qc_compute. Qed.

(** ** The lookup tables: rates and nationalities *)

Lemma depreciation_rates_cases (nationality : string) (rate : Qc) :
  depreciation_rates !! nationality = Some rate →
  rate ∈ [lit 0.15; lit 0.11; lit 0.18; lit 0.13].
Proof.
  unfold depreciation_rates; simpl. intros H.
  repeat (apply lookup_insert_Some in H as [[_ <-]|[_ H]];
          [rewrite !elem_of_cons; tauto|]).
  done.
Qed.

Lemma dep_rate_cases (nationality : string) :
  dep_rate nationality ∈ [lit 0.15; lit 0.11; lit 0.18; lit 0.13; lit 0.1].
Proof.
  unfold dep_rate, Py.get.
  destruct (depreciation_rates !! nationality) as [rate|] eqn:Hrate; simpl.
  - apply depreciation_rates_cases in Hrate.
    revert Hrate. rewrite !elem_of_cons. tauto.
  - rewrite !elem_of_cons. tauto.
Qed.

(** X11. Whatever the nationality string, the depreciation rate is between
    0.1 and 0.18, so the residual value of a finite price that is not
    negative lies between [0.82 ^ 5] and [0.9 ^ 5] of the price (about 37%
    and 59%) and never exceeds the price. *)
Theorem residual_value_bounds (nationality : string) (price : num) (p : Qc) :
  Num.real_of price = Some p → 0 ≤ p →
  lit 0.1 ≤ dep_rate nationality ∧ dep_rate nationality ≤ lit 0.18 ∧
  ∃ v, Num.real_of (residual_value price (dep_rate nationality)) = Some v ∧
       lit 0.82 ^ 5 * p ≤ v ∧ v ≤ lit 0.9 ^ 5 * p ∧ v ≤ p.
Proof.
  intros Hprice Hp.
  assert (∀ r, r ∈ [lit 0.15; lit 0.11; lit 0.18; lit 0.13; lit 0.1] →
    lit 0.1 ≤ r ∧ r ≤ lit 0.18 ∧
    lit 0.82 ^ 5 ≤ (1 - r) ^ 5 ∧ (1 - r) ^ 5 ≤ lit 0.9 ^ 5 ∧ (1 - r) ^ 5 ≤ 1)
    as Hrates.
  { intros r. rewrite !elem_of_cons, elem_of_nil.
    intros [->|[->|[->|[->|[->|[]]]]]]; split_and!; by vm_compute. }
  destruct (Hrates _ (dep_rate_cases nationality)) as (Hlo & Hhi & H1 & H2 & H3).
  split_and!; [done..|].
  exists (p * (1 - dep_rate nationality) ^ 5).
  split; [by apply real_of_mul|].
  rewrite !(Qcmult_comm _ p).
  split_and!.
  - by apply Qcmult_le_mono_nonneg_l.
  - by apply Qcmult_le_mono_nonneg_l.
  - rewrite <-(Qcmult_1_r p) at 2. by apply Qcmult_le_mono_nonneg_l.
Qed.

Lemma residual_value_bounds_witness :
  lit 0.1 ≤ dep_rate "Martian" ∧ dep_rate "Martian" ≤ lit 0.18 ∧
  ∃ v, Num.real_of (residual_value (PyNum (lit 11000)) (dep_rate "Martian"))
         = Some v ∧
       lit 0.82 ^ 5 * lit 11000 ≤ v ∧ v ≤ lit 0.9 ^ 5 * lit 11000 ∧
       v ≤ lit 11000.
Proof.
  apply (residual_value_bounds "Martian" (PyNum (lit 11000)) (lit 11000));
    [reflexivity|by vm_compute].
Defined.

Lemma div_python_nonzero (x : num) (d : Qc) :
  d ≠ 0 → ∃ z, Num.div x (PyNum d) = Ret z.
Proof.
  intros Hd. destruct (Num.div x (PyNum d)) as [z|e] eqn:Hdiv; [by exists z|].
  by apply div_Raise in Hdiv as (_ & ? & _).
Qed.

(** X12. A car of the [challenger_nationality] table has one of the four
    nationalities: its depreciation rate is the one of the table, never the
    default, and [challenger_score] can fail for it only with a [KeyError]
    for the car itself (no fuel economy in the dataset) or for a weight. *)
Theorem challenger_tables_complete (data : dataset) (car nationality : string)
    (cost_score style_score : num) (weights : gmap string num) :
  challenger_nationality !! car = Some nationality →
  nationality ∈ nationalities ∧
  depreciation_rates !! nationality = Some (dep_rate nationality) ∧
  ∀ e, challenger_score data cost_score style_score car nationality weights
         = Raise e →
       ∃ k, e = KeyError k ∧ (k = car ∨ k ∈ weight_keys).
Proof.
  intros Hcar.
  pose proof (challenger_nationality_known _ _ Hcar) as Hknown.
  split; [done|]. split.
  - unfold dep_rate, Py.get. revert Hknown. unfold nationalities.
    rewrite !elem_of_cons, elem_of_nil.
    by intros [->|[->|[->|[->|[]]]]].
  - intros e.
    destruct (known_nationality _ Hknown) as (r & s & Hr & Hs).
    apply getitem_Ret in Hr, Hs.
    unfold challenger_score. rewrite Hr, Hs; simpl.
    unfold getitem at 1.
    destruct (fuel_economy_data data !! car) as [fe|]; simpl.
    + destruct (div_python_nonzero fe (lit 30)) as [z ->]; [done|]; simpl.
      pose proof (calculate_weighted_score_first_missing cost_score style_score
                    (PyNum r) z (PyNum s) weights) as Hkeys.
      destruct (list_find _ weight_keys) as [[i k]|] eqn:Hfind.
      * rewrite Hkeys. intros [= <-]. exists k. split; [done|]. right.
        apply list_find_Some in Hfind as (Hk & _). by eapply list_elem_of_lookup_2.
      * destruct Hkeys as [score ->]. done.
    + intros [= <-]. exists car. by split; [|left].
Qed.

Lemma challenger_tables_complete_witness :
  "Korean" ∈ nationalities ∧
  depreciation_rates !! "Korean" = Some (dep_rate "Korean") ∧
  ∀ e, challenger_score demo_data (PyNum (lit 0.5)) (PyNum (lit 0.9))
         "Hyundai Sonata" "Korean" (slider_weights 4 1 4 1 1) = Raise e →
       ∃ k, e = KeyError k ∧ (k = "Hyundai Sonata" ∨ k ∈ weight_keys).
Proof.
  apply (challenger_tables_complete demo_data "Hyundai Sonata" "Korean").
  reflexivity.
Defined.

Example challenger_score_no_fuel_economy :
  challenger_score demo_data (PyNum (lit 0.5)) (PyNum (lit 0.9))
    "Hyundai Sonata" "Korean" (slider_weights 4 1 4 1 1)
    = Raise (KeyError "Hyundai Sonata").
Proof. reflexivity. Qed.

(** ** The cost scores: shares of the total *)

Lemma shares_same_sign (a b : Qc) :
  0 < a * b →
  0 < b / (a + b) ∧ b / (a + b) < 1 ∧ 0 < a / (a + b) ∧ a / (a + b) < 1.
Proof.
  intros Hab. qc_to_q.
  assert (~ a + b == 0)%Q as Hs by nra.
  pose proof (Qmult_inv_r _ Hs) as Hi.
  set (i := (/ (a + b))%Q) in *. clearbody i.
  split_and!; nra.
Qed.

Lemma shares_order (a b : Qc) :
  (a < 0 → b < 0 → (a / (a + b) < b / (a + b) ↔ b < a)) ∧
  (0 < a → 0 < b → (a / (a + b) < b / (a + b) ↔ a < b)).
Proof.
  split; intros Ha Hb; qc_to_q.
  - assert (~ a + b == 0)%Q as Hs by lra.
    pose proof (Qmult_inv_r _ Hs) as Hi.
    set (i := (/ (a + b))%Q) in *. clearbody i.
    assert (i < 0)%Q by nra.
    split; intros; nra.
  - assert (~ a + b == 0)%Q as Hs by lra.
    pose proof (Qmult_inv_r _ Hs) as Hi.
    set (i := (/ (a + b))%Q) in *. clearbody i.
    assert (0 < i)%Q by nra.
    split; intros; nra.
Qed.





Example cost_scores_cheaper_defender :
  cost_scores (NpNum (Fin (- lit 5000))) (PyNum (- lit 20000))
    = Ret (NpNum (Fin (lit 0.8)), NpNum (Fin (lit 0.2))).
Proof. qc_compute. Qed.

(** ** The weights and the recommendation *)

Lemma zero_or_nan_mul (x : num) : zero_or_nan (Num.mul (of_int 0) x).
Proof.
  unfold zero_or_nan.
  destruct x as [q|[q| | |]]; simpl.
  - left. f_equal. apply Qcmult_0_l.
  - left. f_equal. apply Qcmult_0_l.
  - by right.
  - by right.
  - by right.
Qed.

Lemma zero_or_nan_add (x y : num) :
  zero_or_nan x → zero_or_nan y → zero_or_nan (Num.add x y).
Proof.
  unfold zero_or_nan.
  intros [Hx| ->] [Hy| ->].
  - left. by rewrite (real_of_add _ _ _ _ Hx Hy), Qcplus_0_l.
  - right. by destruct x as [?|[]].
  - right. by destruct y as [?|[]].
  - by right.
Qed.

Lemma zero_or_nan_gt (x y : num) :
  zero_or_nan x → zero_or_nan y → Num.gt x y = false.
Proof.
  unfold zero_or_nan.
  intros [Hx| ->] [Hy| ->].
  - apply not_true_is_false. rewrite (gt_finite _ _ _ _ Hx Hy).
    intros Hlt. by apply Qclt_not_eq in Hlt.
  - by destruct x as [?|[]].
  - done.
  - done.
Qed.

Lemma zero_or_nan_weighted_sum
    (cost_score style_score reliability_score fuel_economy_score safety_score : num) :
  zero_or_nan (weighted_sum cost_score style_score reliability_score
                 fuel_economy_score safety_score 0 0 0 0 0).
Proof.
  unfold weighted_sum. repeat apply zero_or_nan_add; apply zero_or_nan_mul.
Qed.

Lemma defender_score_sliders (cost_score style_score fuel_economy_score score : num)
    (origin : string) (cost style reliability fuel_economy safety : Z) :
  defender_score cost_score style_score fuel_economy_score origin
    (slider_weights style reliability cost fuel_economy safety) = Ret score →
  ∃ r s, score = weighted_sum cost_score style_score (PyNum r)
                   fuel_economy_score (PyNum s)
                   cost style reliability fuel_economy safety.
Proof.
  unfold defender_score. intros H.
  apply bind_Ret in H as (r & _ & H). apply bind_Ret in H as (s & _ & H).
  rewrite slider_weights_score in H. injection H as <-. eauto.
Qed.

Lemma challenger_score_sliders (data : dataset) (cost_score style_score score : num)
    (car nationality : string) (cost style reliability fuel_economy safety : Z) :
  challenger_score data cost_score style_score car nationality
    (slider_weights style reliability cost fuel_economy safety) = Ret score →
  ∃ r f s, score = weighted_sum cost_score style_score (PyNum r) f (PyNum s)
                     cost style reliability fuel_economy safety.
Proof.
  unfold challenger_score. intros H.
  apply bind_Ret in H as (r & _ & H). apply bind_Ret in H as (fe & _ & H).
  apply bind_Ret in H as (f & _ & H). apply bind_Ret in H as (s & _ & H).
  rewrite slider_weights_score in H. injection H as <-. eauto.
Qed.

(** X15. With every weight slider at 0 the page, when it returns, recommends
    keeping: both weighted scores are zero or [nan], and neither is greater
    than the other. *)
Theorem zero_weights_keep (data : dataset) (i : inputs) (r : report) :
  weights i = input_weights (λ _, 0%Z) →
  results_page data i = Ret r →
  zero_or_nan (defender_weighted_score r) ∧
  zero_or_nan (challenger_weighted_score r) ∧
  recommended r = KEEP.
Proof.
  intros Hw H. rewrite input_weights_sliders in Hw.
  page_steps H. simpl. rewrite Hw in *.
  repeat match goal with
  | H' : defender_score _ _ _ _ _ = Ret _ |- _ =>
      apply defender_score_sliders in H' as (? & ? & ->)
  | H' : challenger_score _ _ _ _ _ _ = Ret _ |- _ =>
      apply challenger_score_sliders in H' as (? & ? & ? & ->)
  end.
  split_and!; try apply zero_or_nan_weighted_sum.
  unfold recommendation.
  by rewrite zero_or_nan_gt by apply zero_or_nan_weighted_sum.
Qed.

Lemma zero_weights_keep_witness :
  ∃ r,
    results_page demo_data
      {| defender_market_value := lit 11000;
         defender_operating_costs := [lit 1000; lit 1000; lit 1000];
         defender_fuel_economy_kmpl := lit 12.7;
         style_score_defender_input := 6;
         origin_defender := "Japanese";
         challenger_car := "Toyota Camry";
         style_score_challenger_input := 9;
         weights := input_weights (λ _, 0%Z) |} = Ret r ∧
    recommended r = KEEP.
Proof.
  match goal with |- ∃ r, results_page ?d ?i = _ ∧ _ =>
    destruct (results_page d i) as [r|e] eqn:Hr; [|by vm_compute in Hr];
    exists r; split; [done|];
    by apply (zero_weights_keep d i r)
  end.
Defined.

Lemma lit_inject_Z_mul (k w : Z) :
  lit (inject_Z (k * w)) = lit (inject_Z k) * lit (inject_Z w).
Proof. qc_to_q. by rewrite inject_Z_mult. Qed.

Lemma real_of_weighted_sum (scores : list num) (qs : list Qc)
    (cost style reliability fuel_economy safety : Z) :
  finite_flows scores qs →
  ∀ c s r f a qc qs' qr qf qa,
    scores = [c; s; r; f; a] → qs = [qc; qs'; qr; qf; qa] →
    Num.real_of (weighted_sum c s r f a cost style reliability fuel_economy safety)
      = Some (lit (inject_Z cost) * qc + lit (inject_Z style) * qs'
              + lit (inject_Z reliability) * qr
              + lit (inject_Z fuel_economy) * qf
              + lit (inject_Z safety) * qa).
Proof.
  intros Hfin c s r f a qc qs' qr qf qa -> ->.
  unfold finite_flows in Hfin.
  repeat (apply Forall2_cons_1 in Hfin as [? Hfin]).
  unfold weighted_sum.
  repeat (apply real_of_add || apply (real_of_mul (of_int _) _ _ _ eq_refl));
    done.
Qed.



(** ** The results page: when it returns and how it fails *)

Lemma div_python (a d : Qc) :
  d ≠ 0 → Num.div (PyNum a) (PyNum d) = Ret (PyNum (a / d)).
Proof. intros Hd. unfold Num.div. by rewrite decide_False. Qed.

Lemma is_numpy_add_l (x y : num) : is_numpy x → is_numpy (Num.add x y).
Proof. intros [f ->]. destruct y; by eexists. Qed.

Lemma is_numpy_add_r (x y : num) : is_numpy y → is_numpy (Num.add x y).
Proof. intros [f ->]. destruct x; by eexists. Qed.

Lemma is_numpy_neg (x : num) : is_numpy x → is_numpy (Num.neg x).
Proof. intros [f ->]. by eexists. Qed.

Lemma div_numpy_l (x y : num) :
  is_numpy x → ∃ z, Num.div x y = Ret z ∧ is_numpy z.
Proof. intros [f ->]. destruct y; eexists; (split; [done|by eexists]). Qed.

Lemma div_numpy_r (x y : num) :
  is_numpy y → ∃ z, Num.div x y = Ret z ∧ is_numpy z.
Proof. intros [f ->]. destruct x; eexists; (split; [done|by eexists]). Qed.

Lemma is_numpy_foldl_add (terms : list num) (acc : num) :
  is_numpy acc ∨ Exists is_numpy terms → is_numpy (foldl Num.add acc terms).
Proof.
  revert acc. induction terms as [|x terms IH]; intros acc; simpl.
  - intros [H|H]; [done|by apply Exists_nil in H].
  - intros [H|H]; apply IH.
    + left. by apply is_numpy_add_l.
    + apply Exists_cons in H as [H|H]; [left; by apply is_numpy_add_r|by right].
Qed.

Lemma calculate_pv_returns (cash_flows : list num) (rate : Qc) :
  1 + rate ≠ 0 →
  ∃ pv, calculate_pv cash_flows rate = Ret pv ∧
        (Exists is_numpy cash_flows → is_numpy pv).
Proof.
  intros Hrate. unfold calculate_pv.
  assert (∀ k, ∃ terms,
    comprehension (λ '(year, cf), Num.div cf (PyNum ((1 + rate) ^ year)))
      (enumerate cash_flows k) = Ret terms ∧
    (Exists is_numpy cash_flows → Exists is_numpy terms)) as Hterms.
  { induction cash_flows as [|x flows IH]; intros k; simpl.
    - exists []. split; [done|]. by intros H%Exists_nil.
    - destruct (div_python_nonzero x ((1 + rate) ^ k)) as [z Hz];
        [by apply Qcpower_nonzero|].
      destruct (IH (S k)) as (terms & Hrest & Hnp).
      rewrite Hz, Hrest; simpl. exists (z :: terms). split; [done|].
      intros [Hx|Hflows]%Exists_cons; [|apply Exists_cons; right; by apply Hnp].
      apply Exists_cons. left.
      destruct (div_numpy_l x (PyNum ((1 + rate) ^ k)) Hx) as (z' & Hz' & ?).
      congruence. }
  destruct (Hterms 0%nat) as (terms & -> & Hnp); simpl.
  eexists; split; [done|].
  intros H. apply is_numpy_foldl_add. right. by apply Hnp.
Qed.

Lemma cost_scores_outcomes (defender_pv challenger_pv : num) :
  (∀ e, cost_scores defender_pv challenger_pv = Raise e → e = ZeroDivisionError) ∧
  (is_numpy defender_pv ∨ is_numpy challenger_pv →
   ∃ scores, cost_scores defender_pv challenger_pv = Ret scores).
Proof.
  unfold cost_scores. split.
  - intros e.
    destruct defender_pv as [a|f], challenger_pv as [b|g]; simpl;
      try discriminate.
    case_decide; simpl; [by intros [= <-]|discriminate].
  - intros Hnp.
    assert (is_numpy (Num.add defender_pv challenger_pv)) as Htotal.
    { destruct Hnp; [by apply is_numpy_add_l|by apply is_numpy_add_r]. }
    destruct (div_numpy_r challenger_pv _ Htotal) as (sd & -> & _).
    destruct (div_numpy_r defender_pv _ Htotal) as (sc & -> & _).
    by eexists.
Qed.

Lemma rate_five_percent : 1 + lit 0.05 ≠ 0.
Proof. done. Qed.

Lemma projected_positive_numpy (operating_costs : list Qc) (predicted : list num)
    (x : num) (q : Qc) :
  predict_operating_costs operating_costs = Ret predicted →
  x ∈ predicted → Num.real_of x = Some q → 0 < q → is_numpy x.
Proof.
  unfold predict_operating_costs. case_decide; [done|].
  set (line := LinearRegression.predict _ _).
  intros Hret Hx Hq Hpos.
  assert (predicted = (λ cf, Num.max (PyNum 0) cf) <$> line) as ->
    by congruence.
  clear Hret.
  apply list_elem_of_fmap in Hx as (cf & -> & Hcf).
  unfold line, LinearRegression.predict in Hcf.
  apply list_elem_of_fmap in Hcf as (year & -> & _).
  unfold Num.max in *.
  destruct (Num.gt _ _); [by eexists|].
  injection Hq as <-. by apply Qclt_not_eq in Hpos.
Qed.

Lemma results_page_reaches_scores (data : dataset) (i : inputs)
    (nationality : string) (price fuel_economy : num) (costs : list num)
    (slider : string → Z) :
  length (defender_operating_costs i) = 3%nat →
  challenger_nationality !! challenger_car i = Some nationality →
  challenger_buying_prices data !! challenger_car i = Some price →
  challenger_operating_costs_data data !! challenger_car i = Some costs →
  (5 ≤ length costs)%nat →
  fuel_economy_data data !! challenger_car i = Some fuel_economy →
  origin_defender i ∈ nationalities →
  weights i = input_weights slider →
  ∃ predicted pv_defender pv_challenger,
    predict_operating_costs (defender_operating_costs i) = Ret predicted ∧
    (Exists is_numpy predicted → is_numpy pv_defender) ∧
    match cost_scores pv_defender pv_challenger with
    | Ret _ => ∃ r, results_page data i = Ret r
    | Raise e => results_page data i = Raise e
    end.
Proof.
  intros Hlen Hnat Hprice Hcosts Hfive Hfuel Horigin Hweights.
  unfold results_page, of_int.
  rewrite !div_python by done. cbn [mbind result_bind Py.bind].
  destruct (defender_operating_costs i) as [|c1 [|c2 [|c3 [|]]]]; try done.
  destruct (predict_operating_costs_values c1 c2 c3)
    as (o4 & o5 & o6 & o7 & o8 & Hout & _).
  rewrite Hout. cbn [mbind result_bind Py.bind].
  apply getitem_Ret in Hnat, Hprice, Hcosts, Hfuel.
  rewrite Hnat, Hprice. cbn [mbind result_bind Py.bind].
  rewrite cash_flow_five, Hcosts. cbn [mbind result_bind Py.bind].
  destruct costs as [|k1 [|k2 [|k3 [|k4 [|k5 rest]]]]]; simpl in Hfive; try lia.
  rewrite cash_flow_five. cbn [mbind result_bind Py.bind].
  match goal with |- context [calculate_pv ?flow _ ≫= _] =>
    destruct (calculate_pv_returns flow (lit 0.05) rate_five_percent)
      as (pv_defender & Hpvd & Hnp)
  end.
  rewrite Hpvd. cbn [mbind result_bind Py.bind].
  match goal with |- context [calculate_pv ?flow _ ≫= _] =>
    destruct (calculate_pv_returns flow (lit 0.05) rate_five_percent)
      as (pv_challenger & Hpvc & _)
  end.
  rewrite Hpvc. cbn [mbind result_bind Py.bind].
  exists [o4; o5; o6; o7; o8], pv_defender, pv_challenger.
  split; [done|]. split.
  { intros Hex. apply Hnp.
    apply Exists_cons. right.
    repeat (apply Exists_cons in Hex as [Hex|Hex];
            [repeat (first [apply Exists_cons_hd; by apply is_numpy_neg
                           |apply Exists_cons_hd; apply is_numpy_add_l;
                            by apply is_numpy_neg
                           |apply Exists_cons_tl])|]).
    by apply Exists_nil in Hex. }
  destruct (cost_scores pv_defender pv_challenger) as [[sd sc]|e];
    cbn [mbind result_bind Py.bind]; [|done].
  destruct (known_nationality _ Horigin) as (r & s & Hr & Hs).
  apply getitem_Ret in Hr, Hs.
  unfold defender_score. rewrite Hr, Hs. cbn [mbind result_bind Py.bind].
  rewrite Hweights, input_weights_sliders, slider_weights_score.
  cbn [mbind result_bind Py.bind].
  apply getitem_Ret in Hnat.
  destruct (known_nationality _ (challenger_nationality_known _ _ Hnat))
    as (r' & s' & Hr' & Hs').
  apply getitem_Ret in Hr', Hs'.
  unfold challenger_score. rewrite Hr', Hfuel. cbn [mbind result_bind Py.bind].
  destruct (div_python_nonzero fuel_economy (lit 30)) as [z ->]; [done|].
  cbn [mbind result_bind Py.bind].
  rewrite Hs'. cbn [mbind result_bind Py.bind].
  rewrite slider_weights_score. cbn [mbind result_bind Py.bind].
  by eexists.
Qed.



(** All inputs zero and a free car that costs nothing: both present values
    are the Python number 0 and the page raises. *)
Example results_page_all_zero :
  results_page
    {| challenger_operating_costs_data :=
         {[ "Toyota Camry" := of_int <$> [0; 0; 0; 0; 0]%Z ]};
       fuel_economy_data := {[ "Toyota Camry" := PyNum (lit 15) ]};
       challenger_buying_prices := {[ "Toyota Camry" := of_int 0 ]} |}
    {| defender_market_value := 0;
       defender_operating_costs := [0; 0; 0];
       defender_fuel_economy_kmpl := lit 12.7;
       style_score_defender_input := 6;
       origin_defender := "Japanese";
       challenger_car := "Toyota Camry";
       style_score_challenger_input := 9;
       weights := input_weights default_weight |}
  = Raise ZeroDivisionError.
Proof. by vm_compute. Qed.

Lemma getitem_None {A} (d : gmap string A) (k : string) :
  d !! k = None → getitem d k = Raise (KeyError k).
Proof. apply getitem_Raise. Qed.



Lemma projected_nonneg (operating_costs : list Qc) (predicted : list num)
    (x : num) :
  predict_operating_costs operating_costs = Ret predicted →
  x ∈ predicted → ∃ q, Num.real_of x = Some q ∧ 0 ≤ q.
Proof.
  unfold predict_operating_costs. case_decide; [done|].
  set (line := LinearRegression.predict _ _).
  intros Hret Hx.
  assert (predicted = (λ cf, Num.max (PyNum 0) cf) <$> line) as ->
    by congruence.
  clear Hret.
  apply list_elem_of_fmap in Hx as (cf & -> & Hcf).
  unfold line, LinearRegression.predict in Hcf.
  apply list_elem_of_fmap in Hcf as (year & -> & _).
  eexists. split; [by apply real_of_max_zero|].
  case_decide; [by apply Qclt_le_weak|done].
Qed.



(** ** [calculate_pv] of a series of zeros *)

Lemma qsum_discounted_zeros (rate : Qc) (n k : nat) :
  qsum (discounted rate <$> enumerate (replicate n 0) k) = 0.
Proof.
  revert k. induction n as [|n IH]; intros k; [done|].
  change (replicate (S n) 0) with (0 :: replicate n 0).
  rewrite qsum_discounted_cons, IH. unfold Qcdiv. ring.
Qed.



(** ** The session: which page runs *)

Lemma run_invariant (data : dataset) (s : session) (form : inputs) (button : bool) :
  (page s = "input" ∨ page s = "results" ∧ is_Some (stored_inputs s)) →
  let s' := (run data s form button).1 in
  page s' = "input" ∨ page s' = "results" ∧ is_Some (stored_inputs s').
Proof.
  intros Hs. unfold run.
  destruct (decide (page s = "input")) as [Hin|Hin].
  - destruct button; simpl; [right; by eauto|by left].
  - destruct Hs as [?|[Hres [i Hi]]]; [done|].
    rewrite decide_True, Hi by done.
    destruct (results_page data i); [|by right; eauto].
    destruct button; simpl; [by left|right; by eauto].
Qed.



(** X22. An exception on the results page leaves the session as it is, and
    the "Go Back" button after it in the script is never reached: from then
    on every run, whatever the user does, raises the same exception. *)
Theorem results_page_error_sticks (data : dataset) (s : session) (i : inputs)
    (e : exn) (events : list (inputs * bool)) :
  page s = "results" → stored_inputs s = Some i →
  results_page data i = Raise e →
  runs data s events = s ∧
  ∀ form button, run data (runs data s events) form button = (s, Raise e).
Proof.
  intros Hpage Hi He.
  assert (∀ form button, run data s form button = (s, Raise e)) as Hrun.
  { intros form button. unfold run.
    rewrite decide_False, decide_True, Hi, He by (done || by rewrite Hpage).
    done. }
  assert (runs data s events = s) as Hruns.
  { unfold runs. induction events as [|[form button] events IH]; [done|].
    simpl. by rewrite Hrun. }
  split; [done|]. by rewrite Hruns.
Qed.

Lemma results_page_error_sticks_witness :
  runs demo_data
    {| page := "results";
       stored_inputs :=
         Some {| defender_market_value := lit 11000;
                 defender_operating_costs := [lit 1000; lit 1000; lit 1000];
                 defender_fuel_economy_kmpl := lit 12.7;
                 style_score_defender_input := 6;
                 origin_defender := "Martian";
                 challenger_car := "Toyota Camry";
                 style_score_challenger_input := 9;
                 weights := input_weights default_weight |} |}
    [(demo_inputs, true); (demo_inputs, false)]
  = {| page := "results";
       stored_inputs :=
         Some {| defender_market_value := lit 11000;
                 defender_operating_costs := [lit 1000; lit 1000; lit 1000];
                 defender_fuel_economy_kmpl := lit 12.7;
                 style_score_defender_input := 6;
                 origin_defender := "Martian";
                 challenger_car := "Toyota Camry";
                 style_score_challenger_input := 9;
                 weights := input_weights default_weight |} |}.
Proof.
  match goal with |- runs ?d ?s ?ev = _ =>
    apply (results_page_error_sticks d s _ (KeyError "Martian") ev eq_refl eq_refl)
  end.
  by vm_compute.
Defined.

(** From the first run: submitting the form shows the report on the next
    run, and "Go Back" returns to the input page with the inputs kept. *)
Example session_round_trip :
  page (runs demo_data initial_session [(demo_inputs, true)]) = "results" ∧
  runs demo_data initial_session [(demo_inputs, true); (demo_inputs, true)]
    = {| page := "input"; stored_inputs := Some demo_inputs |}.
Proof. split; [reflexivity|]. by vm_compute. Qed.
